(** * Moloco Ads Reporting CRM: client-side aggregation, filters and upload queue

    A shallow embedding of the TypeScript front end:
    - [Inventory.processInventoryData] (src/pages/Overview.tsx, second document),
    - [Apps.processAppsData] (the Apps page),
    - [Campaigns] / [Exchanges] table filters and the [fetchData] query string,
    - [Overview] totals,
    - [MultiCSVUpload] file queue,
    - the two [clearReports] handlers ([AppSidebar] and [Header]).

    Numbers.  Counters that arrive in the JSON payload are modelled as exact
    rationals ([Q]); rounding and overflow of IEEE doubles are outside the model.
    The result of a JavaScript division is a [number], which may be [NaN] or
    infinite, so that the guards in front of the divisions carry weight.

    Strings.  Strings are byte strings.  [Js.toLowerCase] folds the Basic
    Latin letters A-Z, which is all that the keyword tests of
    [detectPlatform] and [getOSIcon] ask of [String.prototype.toLowerCase];
    the search boxes and the comparator of the tables take the built-in as
    a parameter, so that what is proved of them holds of the Unicode-aware
    function. *)

From Stdlib Require Import List String Ascii Bool Arith ZArith QArith Lia.
From Stdlib Require Import Permutation Sorted Lqa.
Import ListNotations.

Local Open Scope string_scope.
Local Open Scope Q_scope.

(* ------------------------------------------------------------------ *)
(** ** JavaScript values *)

Module Js.

(** A double as far as the model goes: a finite rational, an infinity
    or NaN. *)
Inductive number : Type :=
| Fin (q : Q)
| PosInf
| NegInf
| NaN.

Definition isFinite (x : number) : bool :=
  match x with Fin _ => true | _ => false end.

(** Equality of numbers up to the representation of the rational. *)
Definition num_eq (x y : number) : Prop :=
  match x, y with
  | Fin a, Fin b => a == b
  | PosInf, PosInf => True
  | NegInf, NegInf => True
  | _, _ => False
  end.

(** [a > b] on finite numbers. *)
Definition gt (a b : Q) : bool := negb (Qle_bool a b).

(** [a / b]: a zero divisor gives NaN (0/0) or an infinity. *)
Definition div (a b : Q) : number :=
  if Qeq_bool b 0 then
    if Qeq_bool a 0 then NaN
    else if gt a 0 then PosInf else NegInf
  else Fin (a / b).

(** [x * k] for a finite factor [k]. *)
Definition mul (x : number) (k : Q) : number :=
  match x with
  | Fin q => Fin (q * k)
  | PosInf => if Qeq_bool k 0 then NaN else if gt k 0 then PosInf else NegInf
  | NegInf => if Qeq_bool k 0 then NaN else if gt k 0 then NegInf else PosInf
  | NaN => NaN
  end.

(** [x > k] against a finite bound; comparisons with NaN are false. *)
Definition num_gt (x : number) (k : Q) : bool :=
  match x with
  | Fin q => gt q k
  | PosInf => true
  | NegInf => false
  | NaN => false
  end.

(** [x || 0] on an optional numeric field: [undefined] and [0] are falsy. *)
Definition orZero (x : option Q) : Q :=
  match x with
  | Some q => if Qeq_bool q 0 then 0 else q
  | None => 0
  end.

(** [s || d] on an optional string field: [undefined] and [""] are falsy. *)
Definition orStr (s : option string) (d : string) : string :=
  match s with
  | Some EmptyString => d
  | Some v => v
  | None => d
  end.

(** Truthiness of an optional string. *)
Definition truthyStr (s : option string) : bool :=
  match s with
  | Some EmptyString => false
  | Some _ => true
  | None => false
  end.

(** *** Strings *)

Definition isUpper (c : ascii) : bool :=
  let n := nat_of_ascii c in (65 <=? n)%nat && (n <=? 90)%nat.

Definition lowerChar (c : ascii) : ascii :=
  if isUpper c then ascii_of_nat (nat_of_ascii c + 32) else c.

Fixpoint toLowerCase (s : string) : string :=
  match s with
  | EmptyString => EmptyString
  | String c s' => String (lowerChar c) (toLowerCase s')
  end.

(** [s.includes(q)]: [q] occurs in [s] at some offset. *)
Fixpoint includes (s q : string) : bool :=
  String.prefix q s ||
  match s with
  | EmptyString => false
  | String _ s' => includes s' q
  end.

(** *** [Map<string, V>]: insertion-ordered, one entry per key *)

Section Map.
Context {V : Type}.

Definition Map := list (string * V).

Fixpoint has (k : string) (m : Map) : bool :=
  match m with
  | [] => false
  | (k', _) :: m' => if String.eqb k' k then true else has k m'
  end.

Fixpoint get (k : string) (m : Map) : option V :=
  match m with
  | [] => None
  | (k', v) :: m' => if String.eqb k' k then Some v else get k m'
  end.

(** [m.set(k, v)]: overwrite in place, or append a new entry. *)
Fixpoint set (k : string) (v : V) (m : Map) : Map :=
  match m with
  | [] => [(k, v)]
  | (k', v') :: m' =>
      if String.eqb k' k then (k', v) :: m' else (k', v') :: set k v m'
  end.

(** Mutation of the object stored under [k] through the reference
    returned by [m.get(k)]. *)
Fixpoint mutate (k : string) (f : V -> V) (m : Map) : Map :=
  match m with
  | [] => []
  | (k', v) :: m' =>
      if String.eqb k' k then (k', f v) :: m' else (k', v) :: mutate k f m'
  end.

Definition keys (m : Map) : list string := List.map fst m.
Definition values (m : Map) : list V := List.map snd m.
End Map.
Arguments Map : clear implicits.

(** *** [Array.prototype.sort]: a stable sort driven by a comparator
  (ECMAScript 2019); [cmp a b > 0] puts [b] first. *)

Section Sort.
Context {A : Type} (cmp : A -> A -> Q).

Fixpoint insert (x : A) (l : list A) : list A :=
  match l with
  | [] => [x]
  | y :: l' => if gt (cmp x y) 0 then y :: insert x l' else x :: y :: l'
  end.

Fixpoint sort (l : list A) : list A :=
  match l with
  | [] => []
  | x :: l' => insert x (sort l')
  end.
End Sort.

End Js.

(* ------------------------------------------------------------------ *)
(** ** The [/reports] payload *)

(** One element of [creative_performance.top_performers].  Every field
    may be missing from the JSON object. *)
Record Creative : Type := mkCreative {
  cApp : option string;
  cAppID : option string;
  cOS : option string;
  cCampaign : option string;
  cSpend : option Q;
  cImpressions : option Q;
  cClicks : option Q;
  cInstall : option Q;
  cAction : option Q;
  cIPM : option Q
}.

Record OverviewTotals : Type := mkOverviewTotals {
  total_spend : option Q;
  total_actions : option Q;
  total_impressions : option Q;
  total_installs : option Q
}.

Record CreativePerformance : Type := mkCreativePerformance {
  top_performers : option (list Creative)
}.


(** One row of [top_campaigns] (interface [Campaign]). *)
Record Campaign : Type := mkCampaign {
  campaignName : string;
  campaignSpend : Q;
  campaignImpressions : Q;
  campaignClicks : Q;
  campaignInstall : Q;
  campaignActions : Q;
  campaignPurchase : Q
}.

(** One row of [exchange_performance] (interface [Exchange]). *)
Record Exchange : Type := mkExchange {
  exchangeName : string;
  exchangeSpend : Q;
  exchangeImpressions : Q;
  exchangeClicks : Q;
  exchangeInstall : Q;
  exchangeAction : Q
}.

(** The body of [GET /reports]; every member may be missing. *)
Record Reports : Type := mkReports {
  overview : option OverviewTotals;
  top_campaigns : option (list Campaign);
  creative_performance : option CreativePerformance;
  exchange_performance : option (list Exchange)
}.

(** [result.creative_performance?.top_performers] *)
Definition topPerformers (result : Reports) : option (list Creative) :=
  match creative_performance result with
  | Some cp => top_performers cp
  | None => None
  end.

(* ------------------------------------------------------------------ *)
(** ** Inventory page: [processInventoryData] *)

Module Inventory.

Record InventoryItem : Type := mkItem {
  App : string;
  AppID : string;
  OS : string;
  Spend : Q;
  Impressions : Q;
  Clicks : Q;
  Install : Q;
  Action : Q;
  CTR : Js.number;
  IPM : Js.number;
  CPI : Js.number;
  CPA : Js.number;
  count : Z
}.

Record InventoryData : Type := mkData {
  inventory : list InventoryItem;
  total_inventory : nat
}.

(** [`${creative.App || 'Unknown'}_${creative['App ID'] || 'unknown'}`] *)
Definition appKey (creative : Creative) : string :=
  (Js.orStr (cApp creative) "Unknown" ++ "_"
   ++ Js.orStr (cAppID creative) "unknown")%string.

(** The object stored by [appsMap.set] for a key seen for the first time. *)
Definition newApp (creative : Creative) : InventoryItem :=
  {| App := Js.orStr (cApp creative) "Unknown App";
     AppID := Js.orStr (cAppID creative) "unknown";
     OS := Js.orStr (cOS creative) "Unknown";
     Spend := 0; Impressions := 0; Clicks := 0; Install := 0; Action := 0;
     CTR := Js.Fin 0; IPM := Js.Fin 0; CPI := Js.Fin 0; CPA := Js.Fin 0;
     count := 0 |}.

(** The five [+=] on the counters and [count += 1]. *)
Definition addCreative (creative : Creative) (app : InventoryItem)
  : InventoryItem :=
  {| App := App app; AppID := AppID app; OS := OS app;
     Spend := Spend app + Js.orZero (cSpend creative);
     Impressions := Impressions app + Js.orZero (cImpressions creative);
     Clicks := Clicks app + Js.orZero (cClicks creative);
     Install := Install app + Js.orZero (cInstall creative);
     Action := Action app + Js.orZero (cAction creative);
     CTR := CTR app; IPM := IPM app; CPI := CPI app; CPA := CPA app;
     count := (count app + 1)%Z |}.

(** One turn of the [forEach] callback. *)
Definition visit (appsMap : Js.Map InventoryItem) (creative : Creative)
  : Js.Map InventoryItem :=
  let k := appKey creative in
  let m := if negb (Js.has k appsMap)
           then Js.set k (newApp creative) appsMap
           else appsMap in
  Js.mutate k (addCreative creative) m.

(** [appsMap] when the [if] block has run. *)
Definition buildAppsMap (result : Reports) : Js.Map InventoryItem :=
  match topPerformers result with
  | Some creatives => fold_left visit creatives []
  | None => []
  end.

(** The [.map(app => ({...app, CTR: ..., IPM: ..., CPI: ..., CPA: ...}))]
    callback. *)
Definition withRatios (app : InventoryItem) : InventoryItem :=
  {| App := App app; AppID := AppID app; OS := OS app;
     Spend := Spend app; Impressions := Impressions app;
     Clicks := Clicks app; Install := Install app; Action := Action app;
     CTR := if Js.gt (Impressions app) 0
            then Js.div (Clicks app) (Impressions app) else Js.Fin 0;
     IPM := if Js.gt (Impressions app) 0
            then Js.mul (Js.div (Install app) (Impressions app)) 1000
            else Js.Fin 0;
     CPI := if Js.gt (Install app) 0
            then Js.div (Spend app) (Install app) else Js.Fin 0;
     CPA := if Js.gt (Action app) 0
            then Js.div (Spend app) (Action app) else Js.Fin 0;
     count := count app |}.

(** The state handed to [setData]. *)
Definition processInventoryData (result : Reports) : InventoryData :=
  let inventory := map withRatios (Js.values (buildAppsMap result)) in
  {| inventory := inventory; total_inventory := List.length inventory |}.

End Inventory.

(* ------------------------------------------------------------------ *)
(** ** Apps page: [processAppsData] *)

Module Apps.

Inductive Platform : Type := iOS | Android | UnknownPlatform.
Inductive Performance : Type := Good | Average | Poor.

(** The object kept in [appsMap] while the rows are visited;
    [campaigns] is the [Set], in insertion order. *)
Record AppAcc : Type := mkAcc {
  acc_app : string;
  acc_app_id : string;
  acc_platform : Platform;
  acc_spend : Q;
  acc_actions : Q;
  acc_ipm : Q;
  acc_installs : Q;
  acc_campaigns : list string;
  acc_creatives : Z
}.

(** An element of [appsArray]. *)
Record AppData : Type := mkApp {
  app : string;
  app_id : string;
  platform : Platform;
  spend : Q;
  actions : Q;
  ipm : Q;
  installs : Q;
  campaigns : nat;
  creatives : Z;
  performance : Performance
}.

Record AppsState : Type := mkState {
  apps : list AppData;
  totalSpend : Q;
  totalActions : Q;
  avgIPM : Js.number
}.

Definition detectPlatform (appName appId : string) : Platform :=
  let name := Js.toLowerCase appName in
  let id := Js.toLowerCase appId in
  if Js.includes name "ios" || Js.includes id "ios" || Js.includes id "apple"
  then iOS
  else if Js.includes name "android" || Js.includes id "android"
          || Js.includes id "google"
  then Android
  else UnknownPlatform.

Definition getPerformanceRating (actions ipm spend : Q) : Performance :=
  let actionRate := if Js.gt spend 0 then Js.div actions spend else Js.Fin 0 in
  if Js.num_gt actionRate (1 # 10) && Js.gt ipm 50 then Good
  else if Js.num_gt actionRate (5 # 100) && Js.gt ipm 20 then Average
  else Poor.

(** [set.add(x)] *)
Definition setAdd (x : string) (s : list string) : list string :=
  if existsb (String.eqb x) s then s else (s ++ [x])%list.

Definition newApp (appKey appId : string) : AppAcc :=
  {| acc_app := appKey; acc_app_id := appId;
     acc_platform := detectPlatform appKey appId;
     acc_spend := 0; acc_actions := 0; acc_ipm := 0; acc_installs := 0;
     acc_campaigns := []; acc_creatives := 0 |}.

Definition addCreative (creative : Creative) (a : AppAcc) : AppAcc :=
  {| acc_app := acc_app a; acc_app_id := acc_app_id a;
     acc_platform := acc_platform a;
     acc_spend := acc_spend a + Js.orZero (cSpend creative);
     acc_actions := acc_actions a + Js.orZero (cAction creative);
     acc_ipm := Js.orZero (cIPM creative);
     acc_installs := acc_installs a + Js.orZero (cInstall creative);
     acc_campaigns :=
       if Js.truthyStr (cCampaign creative)
       then setAdd (Js.orStr (cCampaign creative) "") (acc_campaigns a)
       else acc_campaigns a;
     acc_creatives := (acc_creatives a + 1)%Z |}.

Definition appKey (creative : Creative) : string :=
  Js.orStr (cApp creative) "Unknown App".

Definition visit (appsMap : Js.Map AppAcc) (creative : Creative)
  : Js.Map AppAcc :=
  let k := appKey creative in
  let appId := Js.orStr (cAppID creative) "unknown" in
  let m := if negb (Js.has k appsMap)
           then Js.set k (newApp k appId) appsMap
           else appsMap in
  Js.mutate k (addCreative creative) m.

Definition buildAppsMap (data : Reports) : Js.Map AppAcc :=
  match topPerformers data with
  | Some creatives => fold_left visit creatives []
  | None => []
  end.

(** [{...app, campaigns: app.campaigns.size, performance: ...}] *)
Definition rate (a : AppAcc) : AppData :=
  {| app := acc_app a; app_id := acc_app_id a; platform := acc_platform a;
     spend := acc_spend a; actions := acc_actions a; ipm := acc_ipm a;
     installs := acc_installs a;
     campaigns := List.length (acc_campaigns a);
     creatives := acc_creatives a;
     performance :=
       getPerformanceRating (acc_actions a) (acc_ipm a) (acc_spend a) |}.

(** [Array.from(appsMap.values()).map(...)], before the sort. *)
Definition appsArray (data : Reports) : list AppData :=
  map rate (Js.values (buildAppsMap data)).

(** The comparator of [appsArray.sort]. *)
Definition bySpendDesc (a b : AppData) : Q := spend b - spend a.

Definition processAppsData (data : Reports) : AppsState :=
  let sorted := Js.sort bySpendDesc (appsArray data) in
  {| apps := sorted;
     totalSpend := fold_left (fun sum a => sum + spend a) sorted 0;
     totalActions := fold_left (fun sum a => sum + actions a) sorted 0;
     avgIPM :=
       if (0 <? List.length sorted)%nat
       then Js.div (fold_left (fun sum a => sum + ipm a) sorted 0)
                   (inject_Z (Z.of_nat (List.length sorted)))
       else Js.Fin 0 |}.

End Apps.

(* ------------------------------------------------------------------ *)
(** ** Overview page: the totals shown on the cards *)

Module Overview.

(** [data] is [null] until [/reports] has answered. *)
Definition overviewField (f : OverviewTotals -> option Q)
  (data : option Reports) : option Q :=
  match data with
  | Some d => match overview d with Some o => f o | None => None end
  | None => None
  end.

Definition totalSpend (data : option Reports) : Q :=
  Js.orZero (overviewField total_spend data).
Definition totalActions (data : option Reports) : Q :=
  Js.orZero (overviewField total_actions data).
Definition totalImpressions (data : option Reports) : Q :=
  Js.orZero (overviewField total_impressions data).
Definition totalInstalls (data : option Reports) : Q :=
  Js.orZero (overviewField total_installs data).

(** [data?.top_campaigns?.length || 0] *)
Definition campaignsCount (data : option Reports) : nat :=
  match data with
  | Some d => match top_campaigns d with Some l => List.length l | None => 0%nat end
  | None => 0%nat
  end.

(** [data?.creative_performance?.top_performers?.length || 0] *)
Definition creativesCount (data : option Reports) : nat :=
  match data with
  | Some d => match topPerformers d with Some l => List.length l | None => 0%nat end
  | None => 0%nat
  end.

End Overview.

(* ------------------------------------------------------------------ *)
(** ** [fetchData]: the query sent to [/reports]

    The Campaigns, Exchanges and Inventory pages build the query with the
    same statements. *)

Module ReportsQuery.

(** A [Date], known by the string its [toISOString()] returns. *)
Record Date : Type := mkDate { toISOString : string }.

Record DateRange : Type := mkRange {
  range_start : option Date;
  range_end : option Date
}.

(** [s.split('T')[0]] *)
Fixpoint splitT0 (s : string) : string :=
  match s with
  | EmptyString => EmptyString
  | String c s' => if Ascii.eqb c "T" then EmptyString else String c (splitT0 s')
  end.

Definition isoDay (d : Date) : string := splitT0 (toISOString d).

(** [URLSearchParams], as the list of appended pairs. *)
Definition Params := list (string * string).

Definition append (k v : string) (p : Params) : Params := (p ++ [(k, v)])%list.

Definition apiUrl (prod : bool) : string :=
  if prod then "https://moloco-crm-backend.onrender.com"
  else "http://localhost:8000".

(** [params] when [fetch] is called; [now] is [Date.now().toString()]. *)
Definition fetchParams (now : string) (appliedDateRange : DateRange)
  (appliedCountry : option string) : Params :=
  let params := append "_t" now [] in
  let params :=
    match range_start appliedDateRange, range_end appliedDateRange with
    | Some s, Some e =>
        append "end_date" (isoDay e) (append "start_date" (isoDay s) params)
    | Some s, None => append "start_date" (isoDay s) params
    | None, _ => params
    end in
  if Js.truthyStr appliedCountry
  then append "country" (Js.orStr appliedCountry "") params
  else params.

(** The value sent for [k], if any. *)
Definition param (k : string) (p : Params) : option string :=
  match find (fun kv => String.eqb (fst kv) k) p with
  | Some kv => Some (snd kv)
  | None => None
  end.

End ReportsQuery.

(* ------------------------------------------------------------------ *)
(** ** Campaigns and Exchanges tables: the search box *)

Module Campaigns.

(** The [.filter(...)] stage of [filteredAndSortedCampaigns];
    [toLowerCase] is the built-in [String.prototype.toLowerCase]. *)
Definition matches (toLowerCase : string -> string) (searchQuery : string)
  (campaign : Campaign) : bool :=
  Js.includes (toLowerCase (campaignName campaign))
              (toLowerCase searchQuery).

Definition filtered (toLowerCase : string -> string) (searchQuery : string)
  (campaigns : list Campaign) : list Campaign :=
  filter (matches toLowerCase searchQuery) campaigns.

(** [processCampaignData]: [result.top_campaigns || []] *)
Definition processCampaignData (result : Reports) : list Campaign * nat :=
  let campaigns := match top_campaigns result with Some l => l | None => [] end in
  (campaigns, List.length campaigns).

End Campaigns.

Module Exchanges.

(** The [.filter(...)] stage of [filteredAndSortedExchanges];
    [toLowerCase] is the built-in [String.prototype.toLowerCase]. *)
Definition matches (toLowerCase : string -> string) (searchQuery : string)
  (exchange : Exchange) : bool :=
  Js.includes (toLowerCase (exchangeName exchange))
              (toLowerCase searchQuery).

Definition filtered (toLowerCase : string -> string) (searchQuery : string)
  (exchanges : list Exchange) : list Exchange :=
  filter (matches toLowerCase searchQuery) exchanges.

End Exchanges.

(* ------------------------------------------------------------------ *)
(** ** [MultiCSVUpload]: the queue of files *)

Module MultiCSVUpload.

Record File : Type := mkFile { file_name : string; file_size : Z }.

Inductive Status : Type :=
  pending | uploading | processing | completed | error.

Record UploadFile : Type := mkUpload {
  id : string;
  file : File;
  name : string;
  size : Z;
  status : Status;
  progress : Z;
  error_text : option string
}.

(** [arr.slice(0, e)]: a negative [e] counts from the end of the array. *)
Definition slice0 {A : Type} (arr : list A) (e : Z) : list A :=
  let len := Z.of_nat (List.length arr) in
  let k := if (e <? 0)%Z then Z.max (len + e) 0 else Z.min e len in
  firstn (Z.to_nat k) arr.

(** [.map(file => ({ id: generateId(), ... }))]; the [i]-th call of
    [generateId] returns [gen i]. *)
Fixpoint toUploads (gen : nat -> string) (i : nat) (fs : list File)
  : list UploadFile :=
  match fs with
  | [] => []
  | f :: fs' =>
      {| id := gen i; file := f; name := file_name f; size := file_size f;
         status := pending; progress := 0%Z; error_text := None |}
      :: toUploads gen (S i) fs'
  end.

(** [handleFileSelect]: [files_length] is the length captured by the
    callback, [prev] the state the updater receives. *)
Definition handleFileSelect (maxFiles : Z) (files_length : nat)
  (selectedFiles : option (list File)) (gen : nat -> string)
  (prev : list UploadFile) : list UploadFile :=
  match selectedFiles with
  | None => prev
  | Some sel =>
      let newFiles :=
        toUploads gen 0 (slice0 sel (maxFiles - Z.of_nat files_length)%Z) in
      (prev ++ newFiles)%list
  end.

Definition removeFile (i : string) (prev : list UploadFile) : list UploadFile :=
  filter (fun f => negb (String.eqb (id f) i)) prev.

Definition clearAll (prev : list UploadFile) : list UploadFile := [].

Definition retryFile (i : string) (files : list UploadFile) : list UploadFile :=
  match find (fun f => String.eqb (id f) i) files with
  | None => files
  | Some _ =>
      map (fun f =>
             if String.eqb (id f) i
             then {| id := id f; file := file f; name := name f;
                     size := size f; status := pending; progress := 0%Z;
                     error_text := None |}
             else f) files
  end.

(** What the user can do to the queue. *)
Inductive Event : Type :=
| FileSelect (selectedFiles : option (list File)) (gen : nat -> string)
| Drop (dropped : list File) (gen : nat -> string)
| RemoveFile (i : string)
| ClearAll
| RetryFile (i : string).

(** One event; the component renders between two events, so the
    callback sees the length of the current queue. *)
Definition step (maxFiles : Z) (files : list UploadFile) (ev : Event)
  : list UploadFile :=
  match ev with
  | FileSelect sel gen =>
      handleFileSelect maxFiles (List.length files) sel gen files
  | Drop sel gen =>
      handleFileSelect maxFiles (List.length files) (Some sel) gen files
  | RemoveFile i => removeFile i files
  | ClearAll => clearAll files
  | RetryFile i => retryFile i files
  end.

(** The queue after a sequence of events, starting from [useState([])]. *)
Definition run (maxFiles : Z) (evs : list Event) : list UploadFile :=
  fold_left (step maxFiles) evs [].

Definition defaultMaxFiles : Z := 10.

End MultiCSVUpload.

(* ------------------------------------------------------------------ *)
(** ** The two [clearReports] handlers *)

Module ClearReports.

Inductive Method : Type := GET | POST | DELETE.

Record Request : Type := mkRequest { method : Method; url : string }.

(** The JSON body of the answer. *)
Record Body : Type := mkBody { success : bool; message : string }.

(** What [fetch] gives back: [ok] is [response.ok], [json] is [None]
    when [response.json()] throws. *)
Record Response : Type := mkResponse { ok : bool; json : option Body }.

(** What the handler does, in order. *)
Inductive Effect : Type :=
| Fetch (r : Request)
| ToastLoading
| ToastSuccess
| ToastError
| Alert
| ConsoleError
| SetReportsCount (n : Z)
| ReloadNow
| ReloadAfter (ms : Z).

(** [AppSidebar.clearReports]; [answer] is [None] when [fetch] throws. *)
Definition appSidebar_clearReports (prod confirmed : bool)
  (answer : option Response) : list Effect :=
  if negb confirmed then []
  else
    let base := if prod then "https://web-production-37ab6.up.railway.app"
                else "http://localhost:8000" in
    ToastLoading
    :: Fetch {| method := DELETE; url := (base ++ "/clear-reports")%string |}
    :: match answer with
       | Some {| ok := _; json := Some result |} =>
           if success result then [ToastSuccess; ReloadAfter 1000]
           else [ToastError]
       | _ => [ConsoleError; ToastError; Alert]
       end.

(** [Header.clearReports] *)
Definition header_clearReports (prod confirmed : bool)
  (answer : option Response) : list Effect :=
  if negb confirmed then []
  else
    let apiUrl := if prod then "https://r3cstat.vercel.app/api"
                  else "http://localhost:8000" in
    Fetch {| method := POST; url := (apiUrl ++ "/clear-reports")%string |}
    :: match answer with
       | Some response =>
           if ok response then [SetReportsCount 0; ReloadNow] else []
       | None => [ConsoleError]
       end.

(** The requests a handler sends. *)
Definition requests (effects : list Effect) : list Request :=
  flat_map (fun e => match e with Fetch r => [r] | _ => [] end) effects.

End ClearReports.

(* ------------------------------------------------------------------ *)
(** ** Vocabulary of the statements *)

(** The rows of a group: those whose key is [k], in input order. *)
Definition group (key : Creative -> string) (k : string)
  (rows : list Creative) : list Creative :=
  filter (fun c => String.eqb (key c) k) rows.

(** The sum of a counter over rows, a missing value counting as 0; the
    additions are made from 0, left to right, as the loop makes them. *)
Definition total (field : Creative -> option Q) (rows : list Creative) : Q :=
  fold_left Qplus (map (fun c => Js.orZero (field c)) rows) 0.

(** The distinct keys of a list, each at the place of its first
    occurrence. *)
Fixpoint firstSeen (ks : list string) : list string :=
  match ks with
  | [] => []
  | k :: ks' => k :: filter (fun k' => negb (String.eqb k' k)) (firstSeen ks')
  end.

(** The creatives of a payload: none when the member is missing. *)
Definition rowsOf (result : Reports) : list Creative :=
  match topPerformers result with
  | Some rows => rows
  | None => []
  end.

(** The record [processInventoryData] produces for the key [k]. *)
Definition inventoryRecord (result : Reports) (k : string)
  : option Inventory.InventoryItem :=
  option_map Inventory.withRatios (Js.get k (Inventory.buildAppsMap result)).

(** The record [processAppsData] produces for the key [k]. *)
Definition appsRecord (data : Reports) (k : string) : option Apps.AppData :=
  option_map Apps.rate (Js.get k (Apps.buildAppsMap data)).

(** A payload that carries the given creatives and nothing else. *)
Definition reportOf (rows : list Creative) : Reports :=
  {| overview := None; top_campaigns := None;
     creative_performance := Some {| top_performers := Some rows |};
     exchange_performance := None |}.

(** A creative row with an app name, a campaign name and four counters. *)
Definition creativeRow (appName campaign : option string)
  (spendV impressionsV installV ipmV : option Q) : Creative :=
  {| cApp := appName; cAppID := None; cOS := None; cCampaign := campaign;
     cSpend := spendV; cImpressions := impressionsV; cClicks := None;
     cInstall := installV; cAction := None; cIPM := ipmV |}.

(** The three rows of the example, keyed by [Campaign] as it words them. *)
Definition campaignRows : list Creative :=
  [ creativeRow None (Some "A") (Some 10) None (Some 1) None;
    creativeRow None (Some "A") (Some 20) None (Some 3) None;
    creativeRow None (Some "B") (Some 5) None (Some 0) None ].

(** The same three rows keyed by [App], the field the Inventory page
    groups on. *)
Definition appRows : list Creative :=
  [ creativeRow (Some "A") None (Some 10) None (Some 1) None;
    creativeRow (Some "A") None (Some 20) None (Some 3) None;
    creativeRow (Some "B") None (Some 5) None (Some 0) None ].

(** Two creatives of one app whose own IPM values are 1 and 3; over the
    group, 4 installs for 2000 impressions make an IPM of 2. *)
Definition ipmRows : list Creative :=
  [ creativeRow (Some "A") None (Some 10) (Some 1000) (Some 1) (Some 1);
    creativeRow (Some "A") None (Some 20) (Some 1000) (Some 3) (Some 3) ].

(** The outcome the example announces: two records, in this order, with
    Spend 30, Install 4, CPI 7.5 and Spend 5, Install 0, CPI 0. *)
Definition exampleOutcome (rows : list Creative) : Prop :=
  exists a b,
    Inventory.inventory (Inventory.processInventoryData (reportOf rows))
    = [a; b]
    /\ Inventory.Spend a == 30 /\ Inventory.Install a == 4
    /\ Js.num_eq (Inventory.CPI a) (Js.Fin 7.5)
    /\ Inventory.Spend b == 5 /\ Inventory.Install b == 0
    /\ Js.num_eq (Inventory.CPI b) (Js.Fin 0).

(** One creative whose Impressions are negative. *)
Definition negativeRows : list Creative :=
  [ {| cApp := Some "A"; cAppID := None; cOS := None; cCampaign := None;
       cSpend := Some 3; cImpressions := Some (-4); cClicks := Some 2;
       cInstall := Some 1; cAction := Some 0; cIPM := None |} ].

(** The ratios of a record as the specification words them: 0 on a zero
    denominator, the quotient on any other. *)
Definition ratiosAsWorded (out : Inventory.InventoryItem) : Prop :=
  (Inventory.Impressions out == 0 ->
   Js.num_eq (Inventory.CTR out) (Js.Fin 0)
   /\ Js.num_eq (Inventory.IPM out) (Js.Fin 0))
  /\ (~ Inventory.Impressions out == 0 ->
      Js.num_eq (Inventory.CTR out)
        (Js.Fin (Inventory.Clicks out / Inventory.Impressions out))
      /\ Js.num_eq (Inventory.IPM out)
           (Js.Fin (Inventory.Install out / Inventory.Impressions out
                    * 1000)))
  /\ (Inventory.Install out == 0 ->
      Js.num_eq (Inventory.CPI out) (Js.Fin 0))
  /\ (~ Inventory.Install out == 0 ->
      Js.num_eq (Inventory.CPI out)
        (Js.Fin (Inventory.Spend out / Inventory.Install out)))
  /\ (Inventory.Action out == 0 ->
      Js.num_eq (Inventory.CPA out) (Js.Fin 0))
  /\ (~ Inventory.Action out == 0 ->
      Js.num_eq (Inventory.CPA out)
        (Js.Fin (Inventory.Spend out / Inventory.Action out))).

(** *** Case variants of a search query *)





(** *** Sample tables and a sample session of the upload queue *)

Definition sampleCampaigns : list Campaign :=
  [ mkCampaign "FB_Install_US" 120 1000 50 10 4 1;
    mkCampaign "google-uac" 80 900 30 8 2 0;
    mkCampaign "Unity" 15 100 3 0 0 0 ].

Definition sampleExchanges : list Exchange :=
  [ mkExchange "AppLovin" 70 500 20 5 1;
    mkExchange "UnityAds" 30 400 10 2 0 ].

Definition sampleFiles (n : nat) : list MultiCSVUpload.File :=
  map (fun i => MultiCSVUpload.mkFile "report.csv" (Z.of_nat i)) (seq 0 n).

Definition sampleIds (round : string) (i : nat) : string :=
  (round ++ String (ascii_of_nat (48 + i)) EmptyString)%string.

Definition sampleSession : list MultiCSVUpload.Event :=
  [ MultiCSVUpload.FileSelect (Some (sampleFiles 7)) (sampleIds "a");
    MultiCSVUpload.RemoveFile "a3";
    MultiCSVUpload.Drop (sampleFiles 9) (sampleIds "b");
    MultiCSVUpload.RetryFile "b0";
    MultiCSVUpload.FileSelect None (sampleIds "c");
    MultiCSVUpload.Drop (sampleFiles 2) (sampleIds "d") ].

(** One visit of the [forEach] callback, in the shape shared by both
    aggregators: create the entry of the key if needed, then update it. *)
Section GroupingDefs.
Context {V : Type} (key : Creative -> string)
        (fresh : Creative -> V) (add : Creative -> V -> V).

Definition visitWith (m : Js.Map V) (c : Creative) : Js.Map V :=
  let k := key c in
  Js.mutate k (add c)
    (if negb (Js.has k m) then Js.set k (fresh c) m else m).

(** What the rows of a group do to the entry of their key. *)
Definition accumulate (o : option V) (g : list Creative) : option V :=
  fold_left
    (fun o c => Some (add c (match o with Some a => a | None => fresh c end)))
    g o.

End GroupingDefs.

(* ------------------------------------------------------------------ *)
(** ** Further code of the pages *)

(** The sum of a whole-number member over a list of records, from 0,
    left to right. *)
Definition countOver {A : Type} (p : A -> Z) (l : list A) : Z :=
  fold_left (fun sum a => (sum + p a)%Z) l 0%Z.

(** The names of the campaigns of some rows, those rows left out whose
    [Campaign] is missing or empty. *)
Definition campaignNames (rows : list Creative) : list string :=
  map (fun c => Js.orStr (cCampaign c) "")
      (filter (fun c => Js.truthyStr (cCampaign c)) rows).

(** *** Inventory page: the table *)

Module InventoryTable.

Inductive SortOrder : Type := asc | desc.

(** What [item[column]] can be. *)
Inductive Cell : Type :=
| CStr (s : string)
| CNum (x : Js.number)
| CUndef.

(** The [.filter(...)] stage of [filteredAndSortedInventory];
    [toLowerCase] is the built-in [String.prototype.toLowerCase]. *)
Definition matches (toLowerCase : string -> string) (searchQuery : string)
  (item : Inventory.InventoryItem) : bool :=
  Js.includes (toLowerCase (Inventory.App item))
              (toLowerCase searchQuery)
  || Js.includes (toLowerCase (Inventory.AppID item))
                 (toLowerCase searchQuery).

(** [item[column]] on the objects [processInventoryData] builds. *)
Definition cell (column : string) (item : Inventory.InventoryItem) : Cell :=
  if String.eqb column "App" then CStr (Inventory.App item)
  else if String.eqb column "App ID" then CStr (Inventory.AppID item)
  else if String.eqb column "OS" then CStr (Inventory.OS item)
  else if String.eqb column "Spend" then CNum (Js.Fin (Inventory.Spend item))
  else if String.eqb column "Impressions"
       then CNum (Js.Fin (Inventory.Impressions item))
  else if String.eqb column "Clicks" then CNum (Js.Fin (Inventory.Clicks item))
  else if String.eqb column "Install"
       then CNum (Js.Fin (Inventory.Install item))
  else if String.eqb column "Action" then CNum (Js.Fin (Inventory.Action item))
  else if String.eqb column "CTR" then CNum (Inventory.CTR item)
  else if String.eqb column "IPM" then CNum (Inventory.IPM item)
  else if String.eqb column "CPI" then CNum (Inventory.CPI item)
  else if String.eqb column "CPA" then CNum (Inventory.CPA item)
  else if String.eqb column "count"
       then CNum (Js.Fin (inject_Z (Inventory.count item)))
  else CUndef.

(** [x - y] *)
Definition sub (x y : Js.number) : Js.number :=
  match x, y with
  | Js.NaN, _ => Js.NaN
  | _, Js.NaN => Js.NaN
  | Js.Fin a, Js.Fin b => Js.Fin (a - b)
  | Js.Fin _, Js.PosInf => Js.NegInf
  | Js.Fin _, Js.NegInf => Js.PosInf
  | Js.PosInf, Js.PosInf => Js.NaN
  | Js.PosInf, _ => Js.PosInf
  | Js.NegInf, Js.NegInf => Js.NaN
  | Js.NegInf, _ => Js.NegInf
  end.

(** What [sort] reads of the number its comparator returns: its sign,
    NaN counting as 0. *)
Definition verdict (x : Js.number) : Q :=
  match x with
  | Js.Fin q => q
  | Js.PosInf => 1
  | Js.NegInf => -1
  | Js.NaN => 0
  end.

Section Compare.
(** The built-ins the table calls: [s.toLowerCase()],
    [a.localeCompare(b)] and [String(x)] on a number. *)
Context (toLowerCase : string -> string)
        (localeCompare : string -> string -> Q)
        (numberToString : Js.number -> string).

(** [String(value)] *)
Definition toString (c : Cell) : string :=
  match c with
  | CStr s => s
  | CNum x => numberToString x
  | CUndef => "undefined"
  end.

(** The comparator handed to [.sort]. *)
Definition compare (sortColumn : string) (sortOrder : SortOrder)
  (a b : Inventory.InventoryItem) : Q :=
  match cell sortColumn a, cell sortColumn b with
  | CNum aVal, CNum bVal =>
      match sortOrder with
      | asc => verdict (sub aVal bVal)
      | desc => verdict (sub bVal aVal)
      end
  | aVal, bVal =>
      let aStr := toLowerCase (toString aVal) in
      let bStr := toLowerCase (toString bVal) in
      match sortOrder with
      | asc => localeCompare aStr bStr
      | desc => localeCompare bStr aStr
      end
  end.

Definition filteredAndSortedInventory (searchQuery sortColumn : string)
  (sortOrder : SortOrder) (data : Inventory.InventoryData)
  : list Inventory.InventoryItem :=
  Js.sort (compare sortColumn sortOrder)
          (filter (matches toLowerCase searchQuery)
                  (Inventory.inventory data)).

End Compare.

(** The [onClick] of a column header, on [(sortColumn, sortOrder)]. *)
Definition headerClick (column : string) (st : string * SortOrder)
  : string * SortOrder :=
  if String.eqb (fst st) column
  then (fst st, match snd st with asc => desc | desc => asc end)
  else (column, desc).



End InventoryTable.

(** *** The filters of a page: what is picked and what is applied *)

Module Filters.

Record State : Type := mkState {
  dateRange : ReportsQuery.DateRange;
  selectedCountry : option string;
  appliedDateRange : ReportsQuery.DateRange;
  appliedCountry : option string
}.

(** The four [useState] defaults. *)
Definition initial : State :=
  {| dateRange := ReportsQuery.mkRange None None; selectedCountry := None;
     appliedDateRange := ReportsQuery.mkRange None None;
     appliedCountry := None |}.

Definition applyFilters (st : State) : State :=
  {| dateRange := dateRange st; selectedCountry := selectedCountry st;
     appliedDateRange := dateRange st;
     appliedCountry := selectedCountry st |}.

Definition resetFilters (st : State) : State := initial.

Inductive Event : Type :=
| PickDates (s e : option ReportsQuery.Date)
| PickCountry (c : option string)
| Apply
| Reset.

Definition step (st : State) (ev : Event) : State :=
  match ev with
  | PickDates s e =>
      {| dateRange := ReportsQuery.mkRange s e;
         selectedCountry := selectedCountry st;
         appliedDateRange := appliedDateRange st;
         appliedCountry := appliedCountry st |}
  | PickCountry c =>
      {| dateRange := dateRange st; selectedCountry := c;
         appliedDateRange := appliedDateRange st;
         appliedCountry := appliedCountry st |}
  | Apply => applyFilters st
  | Reset => resetFilters st
  end.

Definition run (evs : list Event) : State := fold_left step evs initial.

(** The query [fetchData] sends in a state. *)
Definition query (now : string) (st : State) : ReportsQuery.Params :=
  ReportsQuery.fetchParams now (appliedDateRange st) (appliedCountry st).

Definition isPick (ev : Event) : bool :=
  match ev with
  | PickDates _ _ => true
  | PickCountry _ => true
  | _ => false
  end.

End Filters.

(** *** [MultiCSVUpload]: [processAllFiles] and the counters *)

Module UploadRun.
Import MultiCSVUpload.

(** How [uploadFile] ends: with the parsed answer, or with the message of
    the error it throws. *)
Inductive Outcome : Type :=
| Uploaded (result : string)
| Failed (msg : string).

(** [setFiles(prev => prev.map(f => f.id === i ? g(f) : f))] *)
Definition update (i : string) (g : UploadFile -> UploadFile)
  (prev : list UploadFile) : list UploadFile :=
  map (fun f => if String.eqb (id f) i then g f else f) prev.

Definition withStatus (st : Status) (pr : Z) (f : UploadFile) : UploadFile :=
  {| id := id f; file := file f; name := name f; size := size f;
     status := st; progress := pr; error_text := error_text f |}.

Definition withProgress (pr : Z) (f : UploadFile) : UploadFile :=
  {| id := id f; file := file f; name := name f; size := size f;
     status := status f; progress := pr; error_text := error_text f |}.

Definition withError (msg : string) (f : UploadFile) : UploadFile :=
  {| id := id f; file := file f; name := name f; size := size f;
     status := error; progress := progress f; error_text := Some msg |}.

(** [for (progress = 0; progress <= 50; progress += 10)] *)
Definition progressSteps : list Z := [0; 10; 20; 30; 40; 50]%Z.

(** One turn of the loop of [processAllFiles], for the file whose id is
    [i]; the [result] member, which the component never reads back, is
    kept in the list of results only. *)
Definition iteration (i : string) (o : Outcome) (st : list UploadFile)
  : list UploadFile :=
  let st := update i (withStatus uploading 0) st in
  let st := fold_left (fun s p => update i (withProgress p) s)
                      progressSteps st in
  match o with
  | Uploaded _ =>
      update i (withStatus completed 100)
             (update i (withStatus processing 75) st)
  | Failed msg => update i (withError msg) st
  end.

(** The loop over the files the callback captured; [upload k] is how the
    [k]-th call of [uploadFile] ends. *)
Fixpoint loop (upload : nat -> Outcome) (k : nat) (files : list UploadFile)
  (st : list UploadFile) (results : list string)
  : list UploadFile * list string :=
  match files with
  | [] => (st, results)
  | f :: files' =>
      let o := upload k in
      loop upload (S k) files' (iteration (id f) o st)
           (match o with
            | Uploaded r => (results ++ [r])%list
            | Failed _ => results
            end)
  end.

(** The queue when [processAllFiles] returns, and the argument of
    [onUploadComplete] when it is called. *)
Definition processAllFiles (upload : nat -> Outcome) (files : list UploadFile)
  : list UploadFile * option (list string) :=
  let (st, results) := loop upload 0 files files [] in
  (st, match results with [] => None | _ => Some results end).

Definition isCompleted (f : UploadFile) : bool :=
  match status f with completed => true | _ => false end.

Definition isError (f : UploadFile) : bool :=
  match status f with error => true | _ => false end.

Definition completedCount (files : list UploadFile) : nat :=
  List.length (filter isCompleted files).

Definition errorCount (files : list UploadFile) : nat :=
  List.length (filter isError files).

(** The state of a file when its turn is over. *)
Definition settled (o : Outcome) (f : UploadFile) : UploadFile :=
  match o with
  | Uploaded _ =>
      {| id := id f; file := file f; name := name f; size := size f;
         status := completed; progress := 100; error_text := error_text f |}
  | Failed msg =>
      {| id := id f; file := file f; name := name f; size := size f;
         status := error; progress := 50; error_text := Some msg |}
  end.

(** [settled] along a list, the [j]-th file meeting the [(k + j)]-th
    upload. *)
Fixpoint settledFrom (upload : nat -> Outcome) (k : nat)
  (files : list UploadFile) : list UploadFile :=
  match files with
  | [] => []
  | f :: files' => settled (upload k) f :: settledFrom upload (S k) files'
  end.

(** The two files are one entry of the queue, before and after. *)
Definition sameFile (f f' : UploadFile) : Prop :=
  id f' = id f /\ file f' = file f /\ name f' = name f /\ size f' = size f.

(** The turn of the file is over. *)
Definition isSettled (f : UploadFile) : Prop :=
  status f = completed \/ status f = error.

(** The answers of the uploads that succeed, in order. *)
Fixpoint answersFrom (upload : nat -> Outcome) (k n : nat) : list string :=
  match n with
  | O => []
  | S n' =>
      match upload k with
      | Uploaded r => r :: answersFrom upload (S k) n'
      | Failed _ => answersFrom upload (S k) n'
      end
  end.

End UploadRun.

(** *** Sample inputs *)

Definition sampleUploads : list MultiCSVUpload.UploadFile :=
  MultiCSVUpload.run MultiCSVUpload.defaultMaxFiles
    [ MultiCSVUpload.FileSelect (Some (sampleFiles 3)) (sampleIds "f") ].

Definition sampleUpload (k : nat) : UploadRun.Outcome :=
  match k with
  | 1%nat => UploadRun.Failed "Upload failed: Bad Request"
  | _ => UploadRun.Uploaded "ok"
  end.

(** Three creatives of two apps, with campaigns and operating systems. *)
Definition puzzleSpring : Creative :=
  {| cApp := Some "Puzzle iOS"; cAppID := Some "id1"; cOS := Some "iOS";
     cCampaign := Some "spring"; cSpend := Some 12; cImpressions := Some 400;
     cClicks := Some 20; cInstall := Some 4; cAction := Some 2;
     cIPM := Some 10 |}.

Definition racerSpring : Creative :=
  {| cApp := Some "Racer"; cAppID := Some "com.google.racer";
     cOS := Some "Android"; cCampaign := Some "spring"; cSpend := Some 7;
     cImpressions := Some 100; cClicks := None; cInstall := Some 1;
     cAction := None; cIPM := Some 10 |}.

Definition puzzleSummer : Creative :=
  {| cApp := Some "Puzzle iOS"; cAppID := Some "id1"; cOS := Some "ipad";
     cCampaign := Some "summer"; cSpend := Some 8; cImpressions := Some 600;
     cClicks := Some 5; cInstall := Some 6; cAction := Some 1;
     cIPM := Some 70 |}.

Definition labelledRows : list Creative :=
  [puzzleSpring; racerSpring; puzzleSummer].

(** Stand-ins for the two built-ins of the comparator. *)
Definition sampleLocaleCompare (a b : string) : Q :=
  match String.compare a b with Lt => -1 | Eq => 0 | Gt => 1 end.

Definition sampleNumberToString (x : Js.number) : string := "0".

Definition sampleInventory : Inventory.InventoryData :=
  Inventory.processInventoryData (reportOf labelledRows).

(* ------------------------------------------------------------------ *)
(** ** Insertion-ordered maps *)

Section MapFacts.
Context {V : Type}.
Implicit Types (m : Js.Map V) (k : string) (v : V).

Lemma has_get k m :
  Js.has k m = match Js.get k m with Some _ => true | None => false end.
Proof.
  induction m as [|[k' v'] m IH]; simpl; auto.
  destruct (String.eqb k' k); auto.
Qed.

Lemma has_In_keys k m : Js.has k m = true <-> In k (Js.keys m).
Proof.
  induction m as [|[k' v'] m IH]; simpl.
  - split; [discriminate | tauto].
  - destruct (String.eqb k' k) eqn:E.
    + apply String.eqb_eq in E. tauto.
    + apply String.eqb_neq in E. rewrite IH. tauto.
Qed.

Lemma get_set k k' v m :
  Js.get k' (Js.set k v m) = if String.eqb k k' then Some v else Js.get k' m.
Proof.
  induction m as [|[k0 v0] m IH]; simpl.
  - reflexivity.
  - destruct (String.eqb k0 k) eqn:E0; simpl.
    + apply String.eqb_eq in E0; subst k0.
      destruct (String.eqb k k'); reflexivity.
    + rewrite IH. destruct (String.eqb k0 k') eqn:E1; auto.
      apply String.eqb_eq in E1; subst k0.
      rewrite String.eqb_sym, E0. reflexivity.
Qed.

Lemma get_mutate k k' (f : V -> V) m :
  Js.get k' (Js.mutate k f m)
  = if String.eqb k k' then option_map f (Js.get k m) else Js.get k' m.
Proof.
  induction m as [|[k0 v0] m IH]; simpl.
  - destruct (String.eqb k k'); reflexivity.
  - destruct (String.eqb k0 k) eqn:E0; simpl.
    + apply String.eqb_eq in E0; subst k0.
      destruct (String.eqb k k'); reflexivity.
    + rewrite IH. destruct (String.eqb k0 k') eqn:E1; auto.
      apply String.eqb_eq in E1; subst k0.
      rewrite String.eqb_sym, E0. reflexivity.
Qed.

Lemma keys_mutate k (f : V -> V) m : Js.keys (Js.mutate k f m) = Js.keys m.
Proof.
  unfold Js.keys. induction m as [|[k0 v0] m IH]; simpl; auto.
  destruct (String.eqb k0 k); simpl; congruence.
Qed.

Lemma keys_set k v m :
  Js.keys (Js.set k v m)
  = if Js.has k m then Js.keys m else (Js.keys m ++ [k])%list.
Proof.
  unfold Js.keys. induction m as [|[k0 v0] m IH]; simpl; auto.
  destruct (String.eqb k0 k); simpl; auto.
  rewrite IH. destruct (Js.has k m); reflexivity.
Qed.

(** A value stored under a key is one of the values of the map. *)
Lemma get_In_values k v m : Js.get k m = Some v -> In v (Js.values m).
Proof.
  unfold Js.values. induction m as [|[k0 v0] m IH]; simpl; [discriminate|].
  destruct (String.eqb k0 k); intros H.
  - left. congruence.
  - right. auto.
Qed.

End MapFacts.

Section Grouping.
Context {V : Type} (key : Creative -> string)
        (fresh : Creative -> V) (add : Creative -> V -> V).

Local Abbreviation visitK := (visitWith key fresh add).
Local Abbreviation accumK := (accumulate fresh add).

Lemma get_visitWith m c k :
  Js.get k (visitK m c)
  = if String.eqb (key c) k
    then Some (add c (match Js.get k m with Some a => a | None => fresh c end))
    else Js.get k m.
Proof.
  unfold visitWith. rewrite get_mutate.
  destruct (String.eqb (key c) k) eqn:E.
  - apply String.eqb_eq in E. subst k.
    rewrite has_get. destruct (Js.get (key c) m) eqn:G; simpl.
    + rewrite G. reflexivity.
    + rewrite get_set, String.eqb_refl. reflexivity.
  - rewrite has_get. destruct (Js.get (key c) m) eqn:G; simpl; auto.
    rewrite get_set, E. reflexivity.
Qed.

Lemma get_fold_visitWith rows : forall m k,
  Js.get k (fold_left visitK rows m)
  = accumK (Js.get k m) (group key k rows).
Proof.
  induction rows as [|c rows IH]; intros m k; simpl; auto.
  rewrite IH, get_visitWith. unfold group. simpl.
  destruct (String.eqb (key c) k); reflexivity.
Qed.

Lemma keys_visitWith m c :
  Js.keys (visitK m c)
  = if Js.has (key c) m then Js.keys m else (Js.keys m ++ [key c])%list.
Proof.
  unfold visitWith. rewrite keys_mutate.
  destruct (Js.has (key c) m) eqn:H; simpl; auto.
  rewrite keys_set, H. reflexivity.
Qed.

Lemma accumulate_some g : forall a, exists a', accumK (Some a) g = Some a'.
Proof.
  induction g as [|c g IH]; intros a; simpl; eauto.
Qed.

Lemma accumulate_nonempty o g : g <> [] -> exists a, accumK o g = Some a.
Proof.
  destruct g as [|c g]; [congruence|]. intros _. simpl.
  apply accumulate_some.
Qed.

Lemma accumulate_total (p : V -> Q) (f : Creative -> option Q) :
  (forall c, p (fresh c) = 0) ->
  (forall c a, p (add c a) = p a + Js.orZero (f c)) ->
  forall g o a,
    accumK o g = Some a ->
    p a = fold_left Qplus (map (fun c => Js.orZero (f c)) g)
            (match o with Some a0 => p a0 | None => 0 end).
Proof.
  intros Hfresh Hadd. induction g as [|c g IH]; intros o a H; simpl in *.
  - subst o. reflexivity.
  - apply IH in H. rewrite H. f_equal.
    rewrite Hadd. destruct o; [reflexivity | now rewrite Hfresh].
Qed.

End Grouping.

(* ------------------------------------------------------------------ *)
(** ** The stable sort *)

Section SortFacts.
Context {A : Type} (cmp : A -> A -> Q).

Lemma insert_perm x l : Permutation (Js.insert cmp x l) (x :: l).
Proof.
  induction l as [|y l IH]; simpl; auto.
  destruct (Js.gt (cmp x y) 0); auto.
  rewrite IH. apply perm_swap.
Qed.

Lemma sort_perm l : Permutation (Js.sort cmp l) l.
Proof.
  induction l as [|x l IH]; simpl; auto.
  rewrite insert_perm. auto.
Qed.

Lemma sort_In x l : In x (Js.sort cmp l) <-> In x l.
Proof.
  split; apply Permutation_in; [| symmetry]; apply sort_perm.
Qed.

(** Inserting [x] does not disturb the elements selected by [P] when
    everything [x] moves past is outside [P]. *)
Lemma insert_filter (P : A -> bool) x l :
  (forall y, P x = true -> Js.gt (cmp x y) 0 = true -> P y = false) ->
  filter P (Js.insert cmp x l) = filter P (x :: l).
Proof.
  intros HP. induction l as [|y l IH]; simpl; auto.
  destruct (Js.gt (cmp x y) 0) eqn:E; simpl; auto.
  simpl in IH. rewrite IH.
  destruct (P x) eqn:Px; auto.
  rewrite (HP y eq_refl E). reflexivity.
Qed.

Lemma sort_filter (P : A -> bool) l :
  (forall x y, P x = true -> Js.gt (cmp x y) 0 = true -> P y = false) ->
  filter P (Js.sort cmp l) = filter P l.
Proof.
  intros HP. induction l as [|x l IH]; simpl; auto.
  rewrite insert_filter by (intros y; apply HP).
  simpl. rewrite IH. reflexivity.
Qed.

End SortFacts.

(* ------------------------------------------------------------------ *)
(** ** Aggregated totals *)

(** The loop of [processInventoryData] as a fold of [visitWith]. *)
Lemma inventory_buildAppsMap result :
  Inventory.buildAppsMap result
  = fold_left
      (visitWith Inventory.appKey Inventory.newApp Inventory.addCreative)
      (rowsOf result) [].
Proof.
  unfold Inventory.buildAppsMap, rowsOf.
  destruct (topPerformers result); reflexivity.
Qed.

(** The loop of [processAppsData] is the same fold, with its own key,
    fresh entry and update. *)
Lemma apps_buildAppsMap data :
  Apps.buildAppsMap data
  = fold_left
      (visitWith Apps.appKey
         (fun c => Apps.newApp (Apps.appKey c)
                     (Js.orStr (cAppID c) "unknown"))
         Apps.addCreative)
      (rowsOf data) [].
Proof.
  unfold Apps.buildAppsMap, rowsOf.
  destruct (topPerformers data); reflexivity.
Qed.

Lemma group_nonempty key k rows :
  In k (map key rows) -> group key k rows <> [].
Proof.
  intros H. apply in_map_iff in H. destruct H as [c [Hk Hc]].
  assert (In c (group key k rows)) as Hin.
  { unfold group. apply filter_In. split; auto. now apply String.eqb_eq. }
  intros E. rewrite E in Hin. exact Hin.
Qed.

(** The entry of a key that occurs among the rows. *)
Lemma inventory_entry result k :
  In k (map Inventory.appKey (rowsOf result)) ->
  exists a,
    Js.get k (Inventory.buildAppsMap result) = Some a
    /\ accumulate Inventory.newApp Inventory.addCreative None
         (group Inventory.appKey k (rowsOf result)) = Some a.
Proof.
  intros Hk.
  rewrite inventory_buildAppsMap, get_fold_visitWith. simpl.
  destruct (accumulate_nonempty Inventory.newApp Inventory.addCreative None
              (group Inventory.appKey k (rowsOf result))
              (group_nonempty _ _ _ Hk))
    as [a Ha].
  exists a. auto.
Qed.

Lemma apps_entry data k :
  In k (map Apps.appKey (rowsOf data)) ->
  exists a,
    Js.get k (Apps.buildAppsMap data) = Some a
    /\ accumulate
         (fun c => Apps.newApp (Apps.appKey c) (Js.orStr (cAppID c) "unknown"))
         Apps.addCreative None (group Apps.appKey k (rowsOf data)) = Some a.
Proof.
  intros Hk.
  rewrite apps_buildAppsMap, get_fold_visitWith. simpl.
  destruct (accumulate_nonempty
              (fun c => Apps.newApp (Apps.appKey c)
                          (Js.orStr (cAppID c) "unknown"))
              Apps.addCreative None
              (group Apps.appKey k (rowsOf data)) (group_nonempty _ _ _ Hk))
    as [a Ha].
  exists a. auto.
Qed.

(** C1. For every payload and every grouping key that occurs among its
    creatives, the record produced for that key carries, in each counter,
    the sum of that counter over exactly the creatives with that key, a
    missing value counting as 0: Spend, Impressions, Clicks, Install and
    Action for [processInventoryData] (key App + App ID), and the three
    counters that [processAppsData] keeps (spend, actions, installs; key
    App). *)
Theorem aggregated_totals_are_group_sums :
  forall (result : Reports),
    (forall k, In k (map Inventory.appKey (rowsOf result)) ->
       let rows := group Inventory.appKey k (rowsOf result) in
       exists out,
         inventoryRecord result k = Some out
         /\ In out (Inventory.inventory (Inventory.processInventoryData result))
         /\ Inventory.Spend out = total cSpend rows
         /\ Inventory.Impressions out = total cImpressions rows
         /\ Inventory.Clicks out = total cClicks rows
         /\ Inventory.Install out = total cInstall rows
         /\ Inventory.Action out = total cAction rows)
    /\
    (forall k, In k (map Apps.appKey (rowsOf result)) ->
       let rows := group Apps.appKey k (rowsOf result) in
       exists out,
         appsRecord result k = Some out
         /\ In out (Apps.apps (Apps.processAppsData result))
         /\ Apps.spend out = total cSpend rows
         /\ Apps.actions out = total cAction rows
         /\ Apps.installs out = total cInstall rows).
Proof.
  intros result. split; intros k Hk rows.
  - destruct (inventory_entry _ _ Hk) as [a [Hget Hacc]].
    exists (Inventory.withRatios a).
    split; [unfold inventoryRecord; now rewrite Hget|].
    split.
    { simpl. apply in_map. eapply get_In_values; eauto. }
    unfold total; simpl.
    repeat split.
    + apply (accumulate_total _ _ Inventory.Spend cSpend) in Hacc; auto.
    + apply (accumulate_total _ _ Inventory.Impressions cImpressions) in Hacc;
        auto.
    + apply (accumulate_total _ _ Inventory.Clicks cClicks) in Hacc; auto.
    + apply (accumulate_total _ _ Inventory.Install cInstall) in Hacc; auto.
    + apply (accumulate_total _ _ Inventory.Action cAction) in Hacc; auto.
  - destruct (apps_entry _ _ Hk) as [a [Hget Hacc]].
    exists (Apps.rate a).
    split; [unfold appsRecord; now rewrite Hget|].
    split.
    { simpl. apply sort_In. unfold Apps.appsArray. apply in_map.
      eapply get_In_values; eauto. }
    unfold total; simpl.
    repeat split.
    + apply (accumulate_total _ _ Apps.acc_spend cSpend) in Hacc; auto.
    + apply (accumulate_total _ _ Apps.acc_actions cAction) in Hacc; auto.
    + apply (accumulate_total _ _ Apps.acc_installs cInstall) in Hacc; auto.
Qed.

(* ------------------------------------------------------------------ *)
(** ** Derived ratios *)

Lemma gt_zero_iff a : Js.gt a 0 = true <-> 0 < a.
Proof.
  unfold Js.gt. rewrite negb_true_iff.
  split; intros H.
  - apply Qnot_le_lt. intros Hle. apply Qle_bool_iff in Hle. congruence.
  - destruct (Qle_bool a 0) eqn:E; auto.
    apply Qle_bool_iff in E. exfalso. eapply Qlt_not_le; eauto.
Qed.

Lemma gt_zero_false a : a == 0 -> Js.gt a 0 = false.
Proof.
  intros H. destruct (Js.gt a 0) eqn:E; auto.
  apply gt_zero_iff in E. rewrite H in E. exfalso. eapply Qlt_irrefl; eauto.
Qed.

Lemma gt_zero_nonpos a : a <= 0 -> Js.gt a 0 = false.
Proof.
  intros H. destruct (Js.gt a 0) eqn:E; auto.
  apply gt_zero_iff in E. exfalso. eapply Qlt_not_le; eauto.
Qed.

Lemma div_pos a b : 0 < b -> Js.div a b = Js.Fin (a / b).
Proof.
  intros H. unfold Js.div.
  destruct (Qeq_bool b 0) eqn:E; auto.
  apply Qeq_bool_iff in E. rewrite E in H.
  exfalso. eapply Qlt_irrefl; eauto.
Qed.

Lemma inventory_out result out :
  In out (Inventory.inventory (Inventory.processInventoryData result)) ->
  exists a, In a (Js.values (Inventory.buildAppsMap result))
            /\ out = Inventory.withRatios a.
Proof.
  simpl. intros H. apply in_map_iff in H. destruct H as [a [E Ha]]. eauto.
Qed.

(** C2, as worded: on a record whose Impressions add up to -4, with 2
    clicks and 1 install, the wording asks for CTR = 2 / -4 and
    IPM = 1 / -4 * 1000, and the page shows 0 for both. *)
Lemma negative_denominator_gives_zero :
  ~ (forall out,
       In out (Inventory.inventory
                 (Inventory.processInventoryData (reportOf negativeRows))) ->
       ratiosAsWorded out).
Proof.
  intros H.
  destruct (Inventory.inventory
              (Inventory.processInventoryData (reportOf negativeRows)))
    as [|out l] eqn:E; [discriminate E|].
  specialize (H out (or_introl eq_refl)).
  injection E as <- _.
  destruct H as [_ [H _]].
  destruct H as [H _]; [discriminate|].
  vm_compute in H. discriminate H.
Qed.

(** What the page shows for that record. *)
Example negative_denominator_record :
  map (fun r => (Inventory.Impressions r, Inventory.Clicks r,
                 Inventory.CTR r, Inventory.IPM r))
      (Inventory.inventory
         (Inventory.processInventoryData (reportOf negativeRows)))
  = [(0 + -4, 0 + 2, Js.Fin 0, Js.Fin 0)].
Proof. reflexivity. Qed.

(** C2, amended.  For every record of the inventory, each derived ratio
    is 0 whenever its denominator is not positive, zero or negative, and
    no division is made then: CTR and IPM when Impressions <= 0, CPI when
    Install <= 0, CPA when Action <= 0.  When the denominator is positive
    the ratio is the quotient JavaScript computes: CTR = Clicks /
    Impressions, IPM = Install / Impressions * 1000, CPI = Spend / Install
    and CPA = Spend / Action.  So no ratio is ever the result of a division
    by zero. *)
Theorem ratios_guarded_by_positive_denominator :
  forall (result : Reports) (out : Inventory.InventoryItem),
    In out (Inventory.inventory (Inventory.processInventoryData result)) ->
    (Inventory.Impressions out <= 0 ->
     Inventory.CTR out = Js.Fin 0 /\ Inventory.IPM out = Js.Fin 0)
    /\ (Inventory.Install out <= 0 -> Inventory.CPI out = Js.Fin 0)
    /\ (Inventory.Action out <= 0 -> Inventory.CPA out = Js.Fin 0)
    /\ (0 < Inventory.Impressions out ->
        Inventory.CTR out
        = Js.div (Inventory.Clicks out) (Inventory.Impressions out)
        /\ Inventory.IPM out
           = Js.mul (Js.div (Inventory.Install out)
                            (Inventory.Impressions out)) 1000
        /\ ~ Inventory.Impressions out == 0)
    /\ (0 < Inventory.Install out ->
        Inventory.CPI out
        = Js.div (Inventory.Spend out) (Inventory.Install out)
        /\ ~ Inventory.Install out == 0)
    /\ (0 < Inventory.Action out ->
        Inventory.CPA out
        = Js.div (Inventory.Spend out) (Inventory.Action out)
        /\ ~ Inventory.Action out == 0).
Proof.
  intros result out Hin.
  destruct (inventory_out _ _ Hin) as [a [_ ->]]. simpl.
  assert (forall d, 0 < d -> ~ d == 0) as Hnz.
  { intros d Hd E. rewrite E in Hd. eapply Qlt_irrefl; eauto. }
  split; [| split; [| split; [| split; [| split]]]]; intros H.
  - now rewrite gt_zero_nonpos.
  - now rewrite gt_zero_nonpos.
  - now rewrite gt_zero_nonpos.
  - rewrite (proj2 (gt_zero_iff _) H). auto.
  - rewrite (proj2 (gt_zero_iff _) H). auto.
  - rewrite (proj2 (gt_zero_iff _) H). auto.
Qed.

(** The Inventory page never reads the IPM a row carries: replacing it
    leaves the whole output unchanged. *)
Lemma inventory_ignores_row_ipm (f : Creative -> option Q) rows :
  Inventory.processInventoryData
    (reportOf (map (fun c =>
       {| cApp := cApp c; cAppID := cAppID c; cOS := cOS c;
          cCampaign := cCampaign c; cSpend := cSpend c;
          cImpressions := cImpressions c; cClicks := cClicks c;
          cInstall := cInstall c; cAction := cAction c; cIPM := f c |}) rows))
  = Inventory.processInventoryData (reportOf rows).
Proof.
  unfold Inventory.processInventoryData, Inventory.buildAppsMap. simpl.
  generalize (@nil (string * Inventory.InventoryItem)).
  induction rows as [|c rows IH]; intros m; simpl; [reflexivity|].
  exact (IH (Inventory.visit m c)).
Qed.

(** On the Apps page the [ipm] of an entry is the IPM of the last row of
    its group. *)
Lemma apps_ipm_last (d : Creative) g : forall o a,
  g <> [] ->
  accumulate
    (fun c => Apps.newApp (Apps.appKey c) (Js.orStr (cAppID c) "unknown"))
    Apps.addCreative o g = Some a ->
  Apps.acc_ipm a = Js.orZero (cIPM (last g d)).
Proof.
  induction g as [|c g IH]; intros o a Hne H; [congruence|].
  destruct g as [|c' g].
  - simpl in H. inversion H; subst. reflexivity.
  - change (last (c :: c' :: g) d) with (last (c' :: g) d).
    eapply IH; [congruence|]. exact H.
Qed.

(** C3, at the rows [ipmRows]: the Apps page shows 3, the IPM of the last
    creative of the app, where the sums of the group (4 installs, 2000
    impressions) give 2, the value the Inventory page derives from the
    same rows. *)
Theorem apps_ipm_copied_from_last_row :
  map Apps.ipm (Apps.apps (Apps.processAppsData (reportOf ipmRows))) = [3]
  /\ map cIPM ipmRows = [Some 1; Some 3]
  /\ exists x,
       map Inventory.IPM
         (Inventory.inventory
            (Inventory.processInventoryData (reportOf ipmRows)))
       = [Js.Fin x]
       /\ x == 2.
Proof.
  split; [reflexivity|]. split; [reflexivity|].
  eexists. split; [reflexivity|]. reflexivity.
Qed.

(* ------------------------------------------------------------------ *)
(** ** Order of the output *)

Lemma filter_filter_weaker {A : Type} (P Q : A -> bool) l :
  (forall x, P x = true -> Q x = true) ->
  filter P (filter Q l) = filter P l.
Proof.
  intros H. induction l as [|x l IH]; simpl; auto.
  destruct (Q x) eqn:Qx; simpl.
  - rewrite IH. reflexivity.
  - rewrite IH. destruct (P x) eqn:Px; auto.
    apply H in Px. congruence.
Qed.

Lemma filter_filter_and {A : Type} (P Q : A -> bool) l :
  filter P (filter Q l) = filter (fun x => Q x && P x) l.
Proof.
  induction l as [|x l IH]; simpl; auto.
  destruct (Q x); simpl; rewrite IH; reflexivity.
Qed.

Lemma firstSeen_In k ks : In k (firstSeen ks) <-> In k ks.
Proof.
  induction ks as [|k0 ks IH]; simpl; [tauto|].
  rewrite filter_In, IH, negb_true_iff, String.eqb_neq.
  destruct (string_dec k0 k); [subst|]; intuition congruence.
Qed.

Lemma firstSeen_NoDup ks : NoDup (firstSeen ks).
Proof.
  induction ks as [|k ks IH]; simpl; constructor.
  - rewrite filter_In, String.eqb_refl. simpl. intros [_ H]. discriminate.
  - now apply NoDup_filter.
Qed.

Section Order.
Context {V : Type} (key : Creative -> string)
        (fresh : Creative -> V) (add : Creative -> V -> V).

Local Abbreviation visitK := (visitWith key fresh add).

Lemma has_visitWith m c k :
  Js.has k (visitK m c) = Js.has k m || String.eqb (key c) k.
Proof.
  rewrite !has_get, get_visitWith.
  destruct (String.eqb (key c) k); destruct (Js.get k m); reflexivity.
Qed.

(** The keys of the map after the loop: those already there, then the new
    ones in the order of their first row. *)
Lemma keys_fold_visitWith rows : forall m,
  Js.keys (fold_left visitK rows m)
  = (Js.keys m
     ++ filter (fun k => negb (Js.has k m)) (firstSeen (map key rows)))%list.
Proof.
  induction rows as [|c rows IH]; intros m; simpl.
  - now rewrite app_nil_r.
  - rewrite IH, keys_visitWith.
    destruct (Js.has (key c) m) eqn:H; simpl.
    + f_equal. rewrite filter_filter_and. apply filter_ext. intros k.
      rewrite has_visitWith.
      destruct (String.eqb k (key c)) eqn:E; simpl.
      * apply String.eqb_eq in E. subst k. rewrite H. reflexivity.
      * rewrite String.eqb_sym, E, orb_false_r. reflexivity.
    + rewrite <- app_assoc. simpl. do 2 f_equal.
      rewrite filter_filter_and. apply filter_ext. intros k.
      rewrite has_visitWith, (String.eqb_sym (key c) k).
      destruct (String.eqb k (key c)); destruct (Js.has k m); reflexivity.
Qed.

Lemma keys_fold_from_empty rows :
  Js.keys (fold_left visitK rows []) = firstSeen (map key rows).
Proof.
  rewrite keys_fold_visitWith. simpl.
  induction (firstSeen (map key rows)) as [|k l IH]; simpl; congruence.
Qed.

End Order.

(** With one entry per key, reading the keys in order reads the values
    in order. *)
Lemma get_keys_values {V : Type} (m : Js.Map V) :
  NoDup (Js.keys m) ->
  map (fun k => Js.get k m) (Js.keys m) = map Some (Js.values m).
Proof.
  unfold Js.keys, Js.values.
  induction m as [|[k v] m IH]; simpl; intros H; auto.
  inversion H as [|? ? Hk Hnd]; subst.
  rewrite String.eqb_refl. f_equal.
  rewrite <- IH by assumption.
  apply map_ext_in. intros k' Hin.
  destruct (String.eqb k k') eqn:E; auto.
  apply String.eqb_eq in E. subst. contradiction.
Qed.

Lemma map_option_map {A B : Type} (f : A -> B) (l : list A) :
  map (option_map f) (map Some l) = map Some (map f l).
Proof. induction l; simpl; congruence. Qed.

Lemma inventory_first_seen result :
  map Some (Inventory.inventory (Inventory.processInventoryData result))
  = map (inventoryRecord result)
        (firstSeen (map Inventory.appKey (rowsOf result))).
Proof.
  pose proof (keys_fold_from_empty Inventory.appKey Inventory.newApp
                Inventory.addCreative (rowsOf result)) as Hk.
  rewrite <- inventory_buildAppsMap in Hk.
  rewrite <- Hk. unfold inventoryRecord. simpl.
  rewrite <- map_option_map, <- get_keys_values, map_map; auto.
  rewrite Hk. apply firstSeen_NoDup.
Qed.

Lemma apps_first_seen data :
  map Some (Apps.appsArray data)
  = map (appsRecord data) (firstSeen (map Apps.appKey (rowsOf data))).
Proof.
  pose proof (keys_fold_from_empty Apps.appKey
                (fun c => Apps.newApp (Apps.appKey c)
                            (Js.orStr (cAppID c) "unknown"))
                Apps.addCreative (rowsOf data)) as Hk.
  rewrite <- apps_buildAppsMap in Hk.
  rewrite <- Hk. unfold appsRecord, Apps.appsArray.
  rewrite <- map_option_map, <- get_keys_values, map_map; auto.
  rewrite Hk. apply firstSeen_NoDup.
Qed.

(** Descending sort on spend: records with the same spend are not moved
    past one another. *)
Lemma bySpendDesc_stable v l :
  filter (fun a => Qeq_bool (Apps.spend a) v) (Js.sort Apps.bySpendDesc l)
  = filter (fun a => Qeq_bool (Apps.spend a) v) l.
Proof.
  apply sort_filter. intros x y Hx Hgt.
  apply Qeq_bool_iff in Hx. apply gt_zero_iff in Hgt.
  unfold Apps.bySpendDesc in Hgt.
  destruct (Qeq_bool (Apps.spend y) v) eqn:Hy; auto.
  apply Qeq_bool_iff in Hy. rewrite Hx, Hy in Hgt.
  exfalso. unfold Qminus in Hgt. rewrite Qplus_opp_r in Hgt.
  eapply Qlt_irrefl; eauto.
Qed.

Lemma insert_bySpendDesc_HdRel y x l :
  Apps.spend x <= Apps.spend y ->
  HdRel (fun a b => Apps.spend b <= Apps.spend a) y l ->
  HdRel (fun a b => Apps.spend b <= Apps.spend a) y
        (Js.insert Apps.bySpendDesc x l).
Proof.
  intros Hxy H. destruct l as [|z l]; simpl.
  - constructor. exact Hxy.
  - destruct (Js.gt (Apps.bySpendDesc x z) 0); constructor; auto.
    inversion H; auto.
Qed.

(** After the sort the spends go down. *)
Lemma sort_bySpendDesc_sorted l :
  Sorted (fun a b => Apps.spend b <= Apps.spend a)
         (Js.sort Apps.bySpendDesc l).
Proof.
  induction l as [|x l IH]; simpl; [constructor|].
  induction IH as [|y s Hs IHs Hd]; simpl.
  - repeat constructor.
  - destruct (Js.gt (Apps.bySpendDesc x y) 0) eqn:E.
    + apply gt_zero_iff in E. unfold Apps.bySpendDesc in E.
      assert (Apps.spend x <= Apps.spend y) as Hxy.
      { apply Qlt_le_weak. apply Qlt_minus_iff. exact E. }
      constructor; auto. now apply insert_bySpendDesc_HdRel.
    + constructor; [constructor; auto|]. constructor.
      destruct (Qlt_le_dec (Apps.spend x) (Apps.spend y)) as [Hlt|Hle]; auto.
      assert (Js.gt (Apps.bySpendDesc x y) 0 = true) as Hgt; [|congruence].
      apply gt_zero_iff. unfold Apps.bySpendDesc.
      apply Qlt_minus_iff in Hlt. exact Hlt.
Qed.

(** C4. The output follows the first-seen order of the grouping keys: on
    the Inventory page the records are, in order, the records of the
    distinct keys taken at their first occurrence among the rows; on the
    Apps page the same holds of the array before it is sorted, and the sort
    on spend that follows is a rearrangement of that array which keeps
    records of equal spend in that order. *)
Theorem output_in_first_seen_order :
  forall (result : Reports),
    map Some (Inventory.inventory (Inventory.processInventoryData result))
    = map (inventoryRecord result)
          (firstSeen (map Inventory.appKey (rowsOf result)))
    /\ map Some (Apps.appsArray result)
       = map (appsRecord result)
             (firstSeen (map Apps.appKey (rowsOf result)))
    /\ Permutation (Apps.apps (Apps.processAppsData result))
                   (Apps.appsArray result)
    /\ forall v : Q,
         filter (fun a => Qeq_bool (Apps.spend a) v)
                (Apps.apps (Apps.processAppsData result))
         = filter (fun a => Qeq_bool (Apps.spend a) v)
                  (Apps.appsArray result).
Proof.
  intros result. split; [apply inventory_first_seen|].
  split; [apply apps_first_seen|].
  split; [apply sort_perm|].
  intros v. apply bySpendDesc_stable.
Qed.

(* ------------------------------------------------------------------ *)
(** ** The query sent to [/reports] *)

(** C5. With no applied start, end or country the query carries only the
    cache-busting [_t]; with both dates it carries [start_date] and
    [end_date], the two bounds; with a start date alone it carries
    [start_date] and no [end_date]; a country, when one is applied, is
    added after them as [country].  In general [start_date] is sent exactly
    when a start is applied, [end_date] exactly when both dates are, and
    [country] exactly when the country is a non-empty string. *)
Theorem query_follows_applied_filters :
  forall (now : string) (s e : ReportsQuery.Date) (c : ascii) (cs : string)
         (range : ReportsQuery.DateRange) (applied : option string),
    let country := String c cs in
    ReportsQuery.fetchParams now (ReportsQuery.mkRange None None) None
    = [("_t", now)]
    /\ ReportsQuery.fetchParams now (ReportsQuery.mkRange (Some s) (Some e))
         None
       = [("_t", now); ("start_date", ReportsQuery.isoDay s);
          ("end_date", ReportsQuery.isoDay e)]
    /\ ReportsQuery.fetchParams now (ReportsQuery.mkRange (Some s) None) None
       = [("_t", now); ("start_date", ReportsQuery.isoDay s)]
    /\ ReportsQuery.fetchParams now (ReportsQuery.mkRange None None)
         (Some country)
       = [("_t", now); ("country", country)]
    /\ ReportsQuery.fetchParams now (ReportsQuery.mkRange (Some s) (Some e))
         (Some country)
       = [("_t", now); ("start_date", ReportsQuery.isoDay s);
          ("end_date", ReportsQuery.isoDay e); ("country", country)]
    /\ ReportsQuery.fetchParams now (ReportsQuery.mkRange (Some s) None)
         (Some country)
       = [("_t", now); ("start_date", ReportsQuery.isoDay s);
          ("country", country)]
    /\ ReportsQuery.param "start_date"
         (ReportsQuery.fetchParams now range applied)
       = option_map ReportsQuery.isoDay (ReportsQuery.range_start range)
    /\ ReportsQuery.param "end_date"
         (ReportsQuery.fetchParams now range applied)
       = match ReportsQuery.range_start range with
         | Some _ => option_map ReportsQuery.isoDay
                       (ReportsQuery.range_end range)
         | None => None
         end
    /\ ReportsQuery.param "country"
         (ReportsQuery.fetchParams now range applied)
       = (if Js.truthyStr applied then applied else None).
Proof.
  intros now s e c cs [[s'|] [e'|]] [[|c' cs']|] country;
    repeat split.
Qed.

(** An end date without a start date sends no date at all, and an empty
    country is not sent. *)
Example query_end_only (now : string) (e : ReportsQuery.Date) :
  ReportsQuery.fetchParams now (ReportsQuery.mkRange None (Some e)) (Some "")
  = [("_t", now)].
Proof. reflexivity. Qed.

(** The day sent for a date is the part of its ISO form before the time. *)
Example isoDay_example :
  ReportsQuery.isoDay (ReportsQuery.mkDate "2024-03-01T00:00:00.000Z")
  = "2024-03-01".
Proof. reflexivity. Qed.

(* ------------------------------------------------------------------ *)
(** ** Nothing to show *)

(** C6. A payload without creatives (member missing, list missing or list
    empty) gives the Inventory page an empty list and a count of 0, and each
    total of the Overview page is 0 when the payload, its [overview] or the
    field is missing. *)
Theorem empty_input_gives_empty_summary :
  forall (o : option OverviewTotals) (tc : option (list Campaign))
         (cp : option CreativePerformance) (ep : option (list Exchange))
         (a b c d : option Q),
    let nothing := {| Inventory.inventory := []; Inventory.total_inventory := 0 |} in
    Inventory.processInventoryData (mkReports o tc None ep) = nothing
    /\ Inventory.processInventoryData
         (mkReports o tc (Some (mkCreativePerformance None)) ep) = nothing
    /\ Inventory.processInventoryData
         (mkReports o tc (Some (mkCreativePerformance (Some []))) ep) = nothing
    /\ (Overview.totalSpend None = 0 /\ Overview.totalActions None = 0
        /\ Overview.totalImpressions None = 0
        /\ Overview.totalInstalls None = 0)
    /\ (let data := Some (mkReports None tc cp ep) in
        Overview.totalSpend data = 0 /\ Overview.totalActions data = 0
        /\ Overview.totalImpressions data = 0
        /\ Overview.totalInstalls data = 0)
    /\ Overview.totalSpend
         (Some (mkReports (Some (mkOverviewTotals None b c d)) tc cp ep)) = 0
    /\ Overview.totalActions
         (Some (mkReports (Some (mkOverviewTotals a None c d)) tc cp ep)) = 0
    /\ Overview.totalImpressions
         (Some (mkReports (Some (mkOverviewTotals a b None d)) tc cp ep)) = 0
    /\ Overview.totalInstalls
         (Some (mkReports (Some (mkOverviewTotals a b c None)) tc cp ep)) = 0.
Proof. intros. repeat split. Qed.

(** The Apps page on a payload without creatives: no app, totals 0. *)
Example apps_empty (o : option OverviewTotals) (tc : option (list Campaign))
  (ep : option (list Exchange)) :
  Apps.processAppsData (mkReports o tc None ep)
  = {| Apps.apps := []; Apps.totalSpend := 0; Apps.totalActions := 0;
       Apps.avgIPM := Js.Fin 0 |}.
Proof. reflexivity. Qed.

(* ------------------------------------------------------------------ *)
(** ** The worked example *)

(** C7, as worded: the three rows carry a [Campaign] and no [App], so the
    Inventory aggregation puts them under the one key of unnamed apps and
    does not produce the two records announced. *)
Lemma campaign_rows_collapse : ~ exampleOutcome campaignRows.
Proof.
  intros [a [b [H _]]]. vm_compute in H. discriminate H.
Qed.

(** What the three rows of the example do give: one record. *)
Example campaign_rows_result :
  map (fun r => (Inventory.App r, Inventory.Spend r, Inventory.Install r))
      (Inventory.inventory
         (Inventory.processInventoryData (reportOf campaignRows)))
  = [("Unknown App", 35, 4)].
Proof. reflexivity. Qed.

(** C7, amended: with the three rows keyed by [App] ("A", "A", "B"),
    [processInventoryData] produces exactly two records in first-seen
    order: A with Spend 30, Install 4 and CPI 7.5, then B with Spend 5,
    Install 0 and CPI 0. *)
Theorem app_rows_example :
  exampleOutcome appRows
  /\ map Inventory.App
       (Inventory.inventory
          (Inventory.processInventoryData (reportOf appRows)))
     = ["A"; "B"].
Proof.
  split; [| reflexivity].
  unfold exampleOutcome. eexists. eexists.
  split; [reflexivity|].
  repeat split; vm_compute; reflexivity.
Qed.

(* ------------------------------------------------------------------ *)
(** ** Clearing the reports *)

(** The sidebar sends [DELETE /clear-reports] and, on [success], reloads
    the page. *)
Lemma appSidebar_sends_delete prod answer :
  map ClearReports.method
      (ClearReports.requests
         (ClearReports.appSidebar_clearReports prod true answer))
  = [ClearReports.DELETE].
Proof.
  unfold ClearReports.appSidebar_clearReports. simpl.
  destruct answer as [[o [r|]]|]; simpl; auto.
  destruct (ClearReports.success r); reflexivity.
Qed.

(** C8, at the header: once the user has confirmed, [Header.clearReports]
    sends its one request to [/clear-reports] with the method POST, where
    the sidebar sends DELETE. *)
Theorem header_clears_with_post :
  forall (prod : bool) (answer : option ClearReports.Response),
    map ClearReports.method
        (ClearReports.requests
           (ClearReports.header_clearReports prod true answer))
    = [ClearReports.POST]
    /\ map ClearReports.method
         (ClearReports.requests
            (ClearReports.appSidebar_clearReports prod true answer))
       = [ClearReports.DELETE].
Proof.
  intros prod answer. split; [| apply appSidebar_sends_delete].
  unfold ClearReports.header_clearReports. simpl.
  destruct answer as [r|]; simpl; auto.
  destruct (ClearReports.ok r); reflexivity.
Qed.

(* ------------------------------------------------------------------ *)
(** ** The upload queue *)

Section Queue.
Import MultiCSVUpload.

Lemma slice0_length {A : Type} (arr : list A) (e : Z) :
  (0 <= e)%Z -> (Z.of_nat (List.length (slice0 arr e)) <= e)%Z.
Proof.
  intros He. unfold slice0.
  destruct (e <? 0)%Z eqn:E; [apply Z.ltb_lt in E; lia|].
  rewrite length_firstn. lia.
Qed.

Lemma toUploads_length gen fs : forall i,
  List.length (toUploads gen i fs) = List.length fs.
Proof. induction fs as [|f fs IH]; intros i; simpl; auto. Qed.

(** [handleFileSelect] admits at most [maxFiles] minus the current count
    of new files. *)
Lemma handleFileSelect_admits maxFiles sel gen (prev : list UploadFile) :
  (Z.of_nat (List.length prev) <= maxFiles)%Z ->
  (Z.of_nat
     (List.length
        (handleFileSelect maxFiles (List.length prev) sel gen prev))
   <= maxFiles)%Z.
Proof.
  intros H. unfold handleFileSelect. destruct sel as [sel|]; auto.
  rewrite length_app, toUploads_length.
  pose proof (slice0_length sel (maxFiles - Z.of_nat (List.length prev))).
  lia.
Qed.

Lemma removeFile_length i (prev : list UploadFile) :
  (List.length (removeFile i prev) <= List.length prev)%nat.
Proof. apply filter_length_le. Qed.

Lemma retryFile_length i (files : list UploadFile) :
  List.length (retryFile i files) = List.length files.
Proof.
  unfold retryFile. destruct (find _ files); auto. apply length_map.
Qed.

Lemma step_within maxFiles files ev :
  (0 <= maxFiles)%Z ->
  (Z.of_nat (List.length files) <= maxFiles)%Z ->
  (Z.of_nat (List.length (step maxFiles files ev)) <= maxFiles)%Z.
Proof.
  intros H0 H. destruct ev; unfold step.
  - now apply handleFileSelect_admits.
  - now apply handleFileSelect_admits.
  - pose proof (removeFile_length i files). lia.
  - simpl. exact H0.
  - rewrite retryFile_length. exact H.
Qed.

Lemma fold_step_within maxFiles evs : forall files,
  (0 <= maxFiles)%Z ->
  (Z.of_nat (List.length files) <= maxFiles)%Z ->
  (Z.of_nat (List.length (fold_left (step maxFiles) evs files))
   <= maxFiles)%Z.
Proof.
  induction evs as [|ev evs IH]; intros files H0 H; simpl; auto.
  apply IH; auto. now apply step_within.
Qed.

End Queue.

(** C9. Whatever the sequence of file selections, drops, removals,
    clearings and retries, the queue of [MultiCSVUpload] never holds more
    than [maxFiles] files ([maxFiles] being a capacity, not negative). *)
Theorem queue_within_capacity :
  forall (maxFiles : Z) (evs : list MultiCSVUpload.Event),
    (0 <= maxFiles)%Z ->
    (Z.of_nat (List.length (MultiCSVUpload.run maxFiles evs)) <= maxFiles)%Z.
Proof.
  intros maxFiles evs H0. unfold MultiCSVUpload.run.
  apply fold_step_within; simpl; auto.
Qed.

(* ------------------------------------------------------------------ *)
(** ** The search box *)

Lemma includes_empty s : Js.includes s EmptyString = true.
Proof. destruct s; reflexivity. Qed.

Lemma filter_all {A : Type} (f : A -> bool) l :
  (forall x, f x = true) -> filter f l = l.
Proof.
  intros H. induction l as [|x l IH]; simpl; auto.
  rewrite H, IH. reflexivity.
Qed.






(* ------------------------------------------------------------------ *)
(** ** The statements at concrete inputs *)

Lemma aggregated_totals_at_appRows :
  (exists out,
     inventoryRecord (reportOf appRows) "A_unknown" = Some out
     /\ In out (Inventory.inventory
                  (Inventory.processInventoryData (reportOf appRows)))
     /\ Inventory.Spend out
        = total cSpend (group Inventory.appKey "A_unknown" appRows)
     /\ Inventory.Impressions out
        = total cImpressions (group Inventory.appKey "A_unknown" appRows)
     /\ Inventory.Clicks out
        = total cClicks (group Inventory.appKey "A_unknown" appRows)
     /\ Inventory.Install out
        = total cInstall (group Inventory.appKey "A_unknown" appRows)
     /\ Inventory.Action out
        = total cAction (group Inventory.appKey "A_unknown" appRows))
  /\ (exists out,
        appsRecord (reportOf appRows) "B" = Some out
        /\ In out (Apps.apps (Apps.processAppsData (reportOf appRows)))
        /\ Apps.spend out = total cSpend (group Apps.appKey "B" appRows)
        /\ Apps.actions out = total cAction (group Apps.appKey "B" appRows)
        /\ Apps.installs out
           = total cInstall (group Apps.appKey "B" appRows)).
Proof.
  split.
  - apply (proj1 (aggregated_totals_are_group_sums (reportOf appRows))
             "A_unknown").
    simpl. auto.
  - apply (proj2 (aggregated_totals_are_group_sums (reportOf appRows)) "B").
    simpl. auto.
Defined.

Lemma guarded_ratios_at_ipmRows :
  let result := reportOf ipmRows in
  match inventoryRecord result "A_unknown" with
  | Some out =>
      In out (Inventory.inventory (Inventory.processInventoryData result))
      /\ 0 < Inventory.Impressions out
      /\ Inventory.CTR out
         = Js.div (Inventory.Clicks out) (Inventory.Impressions out)
      /\ Inventory.IPM out
         = Js.mul (Js.div (Inventory.Install out)
                          (Inventory.Impressions out)) 1000
      /\ Inventory.Action out <= 0
      /\ Inventory.CPA out = Js.Fin 0
  | None => False
  end.
Proof.
  intros result.
  destruct (inventoryRecord result "A_unknown") as [out|] eqn:E;
    [| discriminate E].
  assert (In out (Inventory.inventory (Inventory.processInventoryData result)))
    as Hin.
  { injection E as <-. simpl. auto. }
  assert (0 < Inventory.Impressions out) as Hpos.
  { injection E as <-. reflexivity. }
  assert (Inventory.Action out <= 0) as Hact.
  { injection E as <-. simpl. discriminate. }
  destruct (ratios_guarded_by_positive_denominator result out Hin)
    as [_ [_ [Hcpa [Hctr _]]]].
  destruct (Hctr Hpos) as [H1 [H2 _]].
  split; [exact Hin|]. split; [exact Hpos|]. split; [exact H1|].
  split; [exact H2|]. split; [exact Hact|]. exact (Hcpa Hact).
Defined.

Lemma queue_within_default_capacity :
  (0 <= MultiCSVUpload.defaultMaxFiles)%Z
  /\ (Z.of_nat
        (List.length
           (MultiCSVUpload.run MultiCSVUpload.defaultMaxFiles sampleSession))
      <= MultiCSVUpload.defaultMaxFiles)%Z.
Proof.
  split; [unfold MultiCSVUpload.defaultMaxFiles; lia|].
  apply (queue_within_capacity MultiCSVUpload.defaultMaxFiles sampleSession).
  unfold MultiCSVUpload.defaultMaxFiles. lia.
Defined.

(** The sample session fills the queue to its capacity of 10. *)
Example sampleSession_fills :
  map MultiCSVUpload.id
      (MultiCSVUpload.run MultiCSVUpload.defaultMaxFiles sampleSession)
  = ["a0"; "a1"; "a2"; "a4"; "a5"; "a6"; "b0"; "b1"; "b2"; "b3"].
Proof. reflexivity. Qed.


(** With the A-Z folding standing in for the built-in. *)
Example search_sample :
  map campaignName (Campaigns.filtered Js.toLowerCase "uNiTy" sampleCampaigns)
  = ["Unity"]
  /\ map exchangeName
       (Exchanges.filtered Js.toLowerCase "uNiTy" sampleExchanges)
     = ["UnityAds"].
Proof. split; reflexivity. Qed.

(* ------------------------------------------------------------------ *)
(** ** No creative is lost and none is counted twice *)

Lemma countOver_from {A : Type} (p : A -> Z) l : forall a,
  fold_left (fun sum x => (sum + p x)%Z) l a = (a + countOver p l)%Z.
Proof.
  unfold countOver. induction l as [|x l IH]; intros a; simpl.
  - lia.
  - rewrite (IH (a + p x)%Z), (IH (p x)). lia.
Qed.

Lemma countOver_cons {A : Type} (p : A -> Z) x l :
  countOver p (x :: l) = (p x + countOver p l)%Z.
Proof. unfold countOver at 1. simpl. now rewrite countOver_from. Qed.

Lemma countOver_perm {A : Type} (p : A -> Z) l l' :
  Permutation l l' -> countOver p l = countOver p l'.
Proof.
  induction 1 as [| x l l' _ IH | x y l | l l' l'' _ IH1 _ IH2].
  - reflexivity.
  - rewrite !countOver_cons, IH. reflexivity.
  - rewrite !countOver_cons. lia.
  - congruence.
Qed.

Lemma countOver_map {A B : Type} (f : A -> B) (p : B -> Z) l :
  countOver p (map f l) = countOver (fun a => p (f a)) l.
Proof.
  unfold countOver. generalize 0%Z.
  induction l as [|x l IH]; intros a; simpl; auto.
Qed.

Section Counting.
Context {V : Type} (key : Creative -> string)
        (fresh : Creative -> V) (add : Creative -> V -> V)
        (p : V -> Z).
Hypothesis p_fresh : forall c, p (fresh c) = 0%Z.
Hypothesis p_add : forall c a, p (add c a) = (p a + 1)%Z.

Lemma countOver_values_set k v (m : Js.Map V) :
  Js.has k m = false ->
  countOver p (Js.values (Js.set k v m))
  = (countOver p (Js.values m) + p v)%Z.
Proof.
  unfold Js.values. induction m as [|[k0 v0] m IH]; simpl; intros H.
  - rewrite countOver_cons. unfold countOver. simpl. lia.
  - destruct (String.eqb k0 k); [discriminate|]. simpl.
    rewrite !countOver_cons, IH by assumption. lia.
Qed.

Lemma countOver_values_mutate k c (m : Js.Map V) :
  Js.has k m = true ->
  countOver p (Js.values (Js.mutate k (add c) m))
  = (countOver p (Js.values m) + 1)%Z.
Proof.
  unfold Js.values. induction m as [|[k0 v0] m IH]; simpl; intros H.
  - discriminate.
  - destruct (String.eqb k0 k); simpl.
    + rewrite !countOver_cons, p_add. lia.
    + rewrite !countOver_cons, IH by assumption. lia.
Qed.

Lemma has_set_same k v (m : Js.Map V) : Js.has k (Js.set k v m) = true.
Proof. now rewrite has_get, get_set, String.eqb_refl. Qed.

Lemma countOver_values_visit c (m : Js.Map V) :
  countOver p (Js.values (visitWith key fresh add m c))
  = (countOver p (Js.values m) + 1)%Z.
Proof.
  unfold visitWith. destruct (Js.has (key c) m) eqn:H; simpl.
  - now apply countOver_values_mutate.
  - rewrite countOver_values_mutate by apply has_set_same.
    rewrite countOver_values_set, p_fresh by assumption. lia.
Qed.

Lemma countOver_values_fold rows : forall m,
  countOver p (Js.values (fold_left (visitWith key fresh add) rows m))
  = (countOver p (Js.values m) + Z.of_nat (List.length rows))%Z.
Proof.
  induction rows as [|c rows IH]; intros m; simpl List.length;
    simpl fold_left.
  - simpl. lia.
  - rewrite IH, countOver_values_visit. lia.
Qed.

End Counting.

(** X1. The [count]s of the records of the Inventory page add up to the
    number of creatives of the payload, and so do the [creatives] of the
    apps of the Apps page: every creative is taken into one record, once. *)
Theorem every_creative_counted_once :
  forall (result : Reports),
    countOver Inventory.count
      (Inventory.inventory (Inventory.processInventoryData result))
    = Z.of_nat (List.length (rowsOf result))
    /\ countOver Apps.creatives (Apps.apps (Apps.processAppsData result))
       = Z.of_nat (List.length (rowsOf result)).
Proof.
  intros result. split.
  - simpl. rewrite countOver_map, inventory_buildAppsMap.
    rewrite (countOver_values_fold Inventory.appKey Inventory.newApp
               Inventory.addCreative
               (fun a => Inventory.count (Inventory.withRatios a)));
      auto.
  - simpl.
    rewrite (countOver_perm _ _ _ (sort_perm Apps.bySpendDesc _)).
    unfold Apps.appsArray. rewrite countOver_map, apps_buildAppsMap.
    rewrite (countOver_values_fold Apps.appKey _ Apps.addCreative
               (fun a => Apps.creatives (Apps.rate a)));
      auto.
Qed.

(* ------------------------------------------------------------------ *)
(** ** How many records, and what they are called *)

Lemma firstSeen_length ks :
  (List.length (firstSeen ks) <= List.length ks)%nat.
Proof.
  induction ks as [|k ks IH]; simpl; auto.
  pose proof (filter_length_le (fun k' => negb (String.eqb k' k))
                (firstSeen ks)).
  lia.
Qed.

Lemma map_Some_length {A B : Type} (l : list A) (l' : list B)
  (f : B -> option A) :
  map Some l = map f l' -> List.length l = List.length l'.
Proof.
  intros H. apply (f_equal (@List.length _)) in H.
  now rewrite !length_map in H.
Qed.

(** X3. The Inventory page shows one record per distinct key, the Apps
    page one per distinct app: never more records than creatives, and none
    exactly when the payload has no creative. *)
Theorem one_record_per_key :
  forall (result : Reports),
    let rows := rowsOf result in
    Inventory.total_inventory (Inventory.processInventoryData result)
    = List.length (firstSeen (map Inventory.appKey rows))
    /\ List.length (Apps.apps (Apps.processAppsData result))
       = List.length (firstSeen (map Apps.appKey rows))
    /\ (Inventory.total_inventory (Inventory.processInventoryData result)
        <= List.length rows)%nat
    /\ (List.length (Apps.apps (Apps.processAppsData result))
        <= List.length rows)%nat
    /\ match rows with
       | [] =>
           Inventory.inventory (Inventory.processInventoryData result) = []
           /\ Apps.apps (Apps.processAppsData result) = []
       | _ :: _ =>
           Inventory.inventory (Inventory.processInventoryData result) <> []
           /\ Apps.apps (Apps.processAppsData result) <> []
       end.
Proof.
  intros result rows.
  assert (Inventory.total_inventory (Inventory.processInventoryData result)
          = List.length (firstSeen (map Inventory.appKey rows))) as HI.
  { change (Inventory.total_inventory (Inventory.processInventoryData result))
      with (List.length
              (Inventory.inventory (Inventory.processInventoryData result))).
    eapply map_Some_length. apply inventory_first_seen. }
  assert (List.length (Apps.apps (Apps.processAppsData result))
          = List.length (firstSeen (map Apps.appKey rows))) as HA.
  { simpl. rewrite (Permutation_length (sort_perm Apps.bySpendDesc _)).
    eapply map_Some_length. apply apps_first_seen. }
  split; [exact HI|]. split; [exact HA|].
  split; [rewrite HI|split; [rewrite HA|]].
  - etransitivity; [apply firstSeen_length|]. now rewrite length_map.
  - etransitivity; [apply firstSeen_length|]. now rewrite length_map.
  - change (Inventory.total_inventory (Inventory.processInventoryData result))
      with (List.length
              (Inventory.inventory (Inventory.processInventoryData result)))
      in HI.
    clearbody rows.
    destruct (Inventory.inventory (Inventory.processInventoryData result));
      destruct (Apps.apps (Apps.processAppsData result));
      destruct rows as [|c rows]; simpl in HI, HA;
      try discriminate HI; try discriminate HA;
      split; congruence.
Qed.

Section GroupFold.
Context {V : Type} (fresh : Creative -> V) (add : Creative -> V -> V).

(** A member that each row updates by [h] is, in the end, the fold of
    [h] over the group. *)
Lemma accumulate_fold {B : Type} (p : V -> B) (h : B -> Creative -> B)
  (b0 : B) :
  (forall c, p (fresh c) = b0) ->
  (forall c a, p (add c a) = h (p a) c) ->
  forall g o a,
    accumulate fresh add o g = Some a ->
    p a = fold_left h g (match o with Some a0 => p a0 | None => b0 end).
Proof.
  intros Hf Ha. induction g as [|c g IH]; intros o a H; simpl in *.
  - subst o. reflexivity.
  - apply IH in H. rewrite H, Ha. f_equal.
    destruct o; [reflexivity | now rewrite Hf].
Qed.

Lemma accumulate_keep {B : Type} (p : V -> B) :
  (forall c a, p (add c a) = p a) ->
  forall g a0 a, accumulate fresh add (Some a0) g = Some a -> p a = p a0.
Proof.
  intros Ha. induction g as [|c g IH]; intros a0 a H; simpl in *.
  - congruence.
  - apply IH in H. now rewrite H, Ha.
Qed.

(** A member that no row updates is the one the first row of the group
    gave it. *)
Lemma accumulate_first {B : Type} (p : V -> B) :
  (forall c a, p (add c a) = p a) ->
  forall g c0 a,
    accumulate fresh add None (c0 :: g) = Some a -> p a = p (fresh c0).
Proof.
  intros Ha g c0 a H. simpl in H.
  apply (accumulate_keep p Ha) in H. now rewrite H, Ha.
Qed.

End GroupFold.

(** X4. A record takes its labels from the first creative of its group:
    on the Inventory page App, App ID and OS (with their defaults when the
    creative lacks them), on the Apps page the app id and the platform
    detected from it; later creatives of the group do not change them. *)
Theorem labels_from_first_row :
  forall (result : Reports) (k : string) (first : Creative)
         (others : list Creative),
    (group Inventory.appKey k (rowsOf result) = first :: others ->
     exists out,
       inventoryRecord result k = Some out
       /\ Inventory.App out = Js.orStr (cApp first) "Unknown App"
       /\ Inventory.AppID out = Js.orStr (cAppID first) "unknown"
       /\ Inventory.OS out = Js.orStr (cOS first) "Unknown")
    /\ (group Apps.appKey k (rowsOf result) = first :: others ->
        exists out,
          appsRecord result k = Some out
          /\ Apps.app out = k
          /\ Apps.app_id out = Js.orStr (cAppID first) "unknown"
          /\ Apps.platform out
             = Apps.detectPlatform k (Js.orStr (cAppID first) "unknown")).
Proof.
  intros result k first others. split; intros Hg.
  - unfold inventoryRecord.
    rewrite inventory_buildAppsMap, get_fold_visitWith, Hg.
    change (Js.get k []) with (@None Inventory.InventoryItem).
    destruct (accumulate_nonempty Inventory.newApp Inventory.addCreative None
                (first :: others)) as [a Ha]; [discriminate|].
    rewrite Ha. exists (Inventory.withRatios a).
    split; [reflexivity|]. simpl.
    repeat split.
    + apply (accumulate_first _ _ Inventory.App) in Ha; auto.
    + apply (accumulate_first _ _ Inventory.AppID) in Ha; auto.
    + apply (accumulate_first _ _ Inventory.OS) in Ha; auto.
  - unfold appsRecord.
    rewrite apps_buildAppsMap, get_fold_visitWith, Hg.
    change (Js.get k []) with (@None Apps.AppAcc).
    destruct (accumulate_nonempty
                (fun c => Apps.newApp (Apps.appKey c)
                            (Js.orStr (cAppID c) "unknown"))
                Apps.addCreative None (first :: others)) as [a Ha];
      [discriminate|].
    rewrite Ha. exists (Apps.rate a).
    split; [reflexivity|]. simpl.
    assert (Apps.appKey first = k) as Hk.
    { assert (In first (group Apps.appKey k (rowsOf result))) as Hin
        by (rewrite Hg; left; reflexivity).
      apply filter_In in Hin. now apply String.eqb_eq. }
    repeat split.
    + apply (accumulate_first _ _ Apps.acc_app) in Ha; auto.
      rewrite Ha. exact Hk.
    + apply (accumulate_first _ _ Apps.acc_app_id) in Ha; auto.
    + apply (accumulate_first _ _ Apps.acc_platform) in Ha; auto.
      rewrite Ha. simpl. now rewrite Hk.
Qed.

(* ------------------------------------------------------------------ *)
(** ** Apps page: campaigns, creatives and IPM of an app *)

Lemma setAdd_fold l : forall s,
  fold_left (fun s x => Apps.setAdd x s) l s
  = (s ++ filter (fun x => negb (existsb (String.eqb x) s)) (firstSeen l))%list.
Proof.
  induction l as [|x l IH]; intros s; simpl.
  - now rewrite app_nil_r.
  - rewrite IH. unfold Apps.setAdd.
    destruct (existsb (String.eqb x) s) eqn:E; simpl.
    + f_equal. rewrite filter_filter_weaker; auto.
      intros y Hy. apply negb_true_iff in Hy. apply negb_true_iff.
      destruct (String.eqb y x) eqn:Eyx; auto.
      apply String.eqb_eq in Eyx. subst y. congruence.
    + rewrite <- app_assoc. simpl. do 2 f_equal.
      rewrite filter_filter_and. apply filter_ext. intros y.
      rewrite existsb_app. simpl. rewrite orb_false_r.
      destruct (String.eqb y x); destruct (existsb (String.eqb y) s);
        reflexivity.
Qed.

Lemma setAdd_fold_empty l :
  fold_left (fun s x => Apps.setAdd x s) l [] = firstSeen l.
Proof.
  rewrite setAdd_fold. simpl. apply filter_all. reflexivity.
Qed.

Lemma campaigns_fold g : forall s,
  fold_left (fun s c =>
               if Js.truthyStr (cCampaign c)
               then Apps.setAdd (Js.orStr (cCampaign c) "") s else s) g s
  = fold_left (fun s x => Apps.setAdd x s) (campaignNames g) s.
Proof.
  unfold campaignNames.
  induction g as [|c g IH]; intros s; simpl; auto.
  destruct (Js.truthyStr (cCampaign c)); simpl; apply IH.
Qed.

Lemma count_fold {A : Type} (g : list A) : forall z,
  fold_left (fun (z : Z) (_ : A) => (z + 1)%Z) g z
  = (z + Z.of_nat (List.length g))%Z.
Proof.
  induction g as [|c g IH]; intros z; simpl List.length; simpl fold_left.
  - lia.
  - rewrite IH. lia.
Qed.

(** X5. For every app that occurs among the creatives, the Apps page
    counts as [campaigns] the distinct non-empty campaign names of the
    app's creatives, and as [creatives] the creatives of the app; so there
    are never more campaigns than creatives. *)
Theorem apps_campaigns_distinct :
  forall (data : Reports) (k : string),
    In k (map Apps.appKey (rowsOf data)) ->
    let rows := group Apps.appKey k (rowsOf data) in
    exists out,
      appsRecord data k = Some out
      /\ Apps.campaigns out = List.length (firstSeen (campaignNames rows))
      /\ Apps.creatives out = Z.of_nat (List.length rows)
      /\ (Z.of_nat (Apps.campaigns out) <= Apps.creatives out)%Z.
Proof.
  intros data k Hk rows.
  destruct (apps_entry _ _ Hk) as [a [Hget Hacc]].
  exists (Apps.rate a).
  split; [unfold appsRecord; now rewrite Hget|].
  assert (Apps.acc_campaigns a = firstSeen (campaignNames rows)) as Hc.
  { apply (accumulate_fold _ _ Apps.acc_campaigns
             (fun s c => if Js.truthyStr (cCampaign c)
                         then Apps.setAdd (Js.orStr (cCampaign c) "") s
                         else s) []) in Hacc; auto.
    rewrite Hacc, campaigns_fold. apply setAdd_fold_empty. }
  assert (Apps.acc_creatives a = Z.of_nat (List.length rows)) as Hn.
  { apply (accumulate_fold _ _ Apps.acc_creatives
             (fun z _ => (z + 1)%Z) 0%Z) in Hacc; auto.
    rewrite Hacc, count_fold. reflexivity. }
  simpl. rewrite Hc, Hn. repeat split.
  apply inj_le. etransitivity; [apply firstSeen_length|].
  unfold campaignNames. rewrite length_map. apply filter_length_le.
Qed.

(** X6. For every app that occurs among the creatives, the [ipm] the
    Apps page shows is the IPM member of the last creative of that app in
    the payload, 0 when that creative has none. *)
Theorem apps_ipm_of_last_creative :
  forall (data : Reports) (k : string) (d : Creative),
    In k (map Apps.appKey (rowsOf data)) ->
    exists out,
      appsRecord data k = Some out
      /\ Apps.ipm out
         = Js.orZero (cIPM (last (group Apps.appKey k (rowsOf data)) d)).
Proof.
  intros data k d Hk.
  destruct (apps_entry _ _ Hk) as [a [Hget Hacc]].
  exists (Apps.rate a).
  split; [unfold appsRecord; now rewrite Hget|].
  simpl. eapply apps_ipm_last; eauto.
  now apply group_nonempty.
Qed.

(* ------------------------------------------------------------------ *)
(** ** Apps page: the rating and the platform *)

Lemma gt_iff a b : Js.gt a b = true <-> b < a.
Proof.
  unfold Js.gt. rewrite negb_true_iff. split; intros H.
  - apply Qnot_le_lt. intros Hle. apply Qle_bool_iff in Hle. congruence.
  - destruct (Qle_bool a b) eqn:E; auto.
    apply Qle_bool_iff in E. lra.
Qed.

(** An action rate above a positive bound takes a positive spend and
    positive actions. *)
Lemma actionRate_positive t a s :
  0 < t ->
  Js.num_gt (if Js.gt s 0 then Js.div a s else Js.Fin 0) t = true ->
  0 < s /\ 0 < a.
Proof.
  intros Ht H. destruct (Js.gt s 0) eqn:E.
  - apply gt_iff in E. split; [exact E|].
    rewrite div_pos in H by assumption. simpl in H. apply gt_iff in H.
    destruct (Qlt_le_dec 0 a) as [Ha|Ha]; auto.
    exfalso.
    assert (a / s <= 0) as Hq.
    { unfold Qdiv. rewrite <- (Qmult_0_l (/ s)).
      apply Qmult_le_compat_r; auto.
      apply Qlt_le_weak. now apply Qinv_lt_0_compat. }
    lra.
  - simpl in H. apply gt_iff in H. lra.
Qed.

(** X7. An app is rated Good only with a positive spend, positive
    actions and an IPM above 50, and Average only with a positive spend,
    positive actions and an IPM above 20; so it is rated Poor whenever
    nothing was spent (no division is made then), whenever it has no
    action, and whenever its IPM is at most 20. *)
Theorem rating_needs_spend_actions_ipm :
  forall (actions ipm spend : Q),
    (Apps.getPerformanceRating actions ipm spend = Apps.Good ->
     0 < spend /\ 0 < actions /\ 50 < ipm)
    /\ (Apps.getPerformanceRating actions ipm spend = Apps.Average ->
        0 < spend /\ 0 < actions /\ 20 < ipm)
    /\ (spend <= 0 \/ actions <= 0 \/ ipm <= 20 ->
        Apps.getPerformanceRating actions ipm spend = Apps.Poor).
Proof.
  intros actions ipm spend.
  unfold Apps.getPerformanceRating. cbv zeta.
  match goal with
  | |- context [if ?b then Apps.Good else _] => destruct b eqn:EG
  end;
  [| match goal with
     | |- context [if ?b then Apps.Average else _] => destruct b eqn:EA
     end ].
  - apply andb_true_iff in EG. destruct EG as [Hr Hi].
    apply gt_iff in Hi.
    apply actionRate_positive in Hr; [| reflexivity].
    destruct Hr as [Hs Ha].
    split; [auto|]. split; [discriminate|].
    intros [H|[H|H]]; exfalso; lra.
  - apply andb_true_iff in EA. destruct EA as [Hr Hi].
    apply gt_iff in Hi.
    apply actionRate_positive in Hr; [| reflexivity].
    destruct Hr as [Hs Ha].
    split; [discriminate|]. split; [auto|].
    intros [H|[H|H]]; exfalso; lra.
  - split; [discriminate|]. split; [discriminate|]. reflexivity.
Qed.


(* ------------------------------------------------------------------ *)
(** ** Inventory page: the table *)

Section SortedFacts.
Context {A : Type} (cmp : A -> A -> Q) (R : A -> A -> Prop).
Hypothesis cmp_pos : forall x y, Js.gt (cmp x y) 0 = true -> R y x.
Hypothesis cmp_nonpos : forall x y, Js.gt (cmp x y) 0 = false -> R x y.

Lemma insert_HdRel y x l :
  R y x -> HdRel R y l -> HdRel R y (Js.insert cmp x l).
Proof.
  intros Hyx H. destruct l as [|z l]; simpl.
  - now constructor.
  - destruct (Js.gt (cmp x z) 0); constructor; auto.
    now inversion H.
Qed.

Lemma insert_Sorted x l : Sorted R l -> Sorted R (Js.insert cmp x l).
Proof.
  induction 1 as [|y l Hs IH Hd]; simpl.
  - repeat constructor.
  - destruct (Js.gt (cmp x y) 0) eqn:E.
    + constructor; auto. apply insert_HdRel; auto.
    + constructor; [now constructor|]. constructor. now apply cmp_nonpos.
Qed.

Lemma sort_Sorted l : Sorted R (Js.sort cmp l).
Proof.
  induction l as [|x l IH]; simpl; [constructor|]. now apply insert_Sorted.
Qed.

End SortedFacts.

Section InventoryTableFacts.
Context (toLowerCase : string -> string)
        (localeCompare : string -> string -> Q)
        (numberToString : Js.number -> string).

Local Abbreviation table :=
  (InventoryTable.filteredAndSortedInventory toLowerCase localeCompare
     numberToString).

(** X9. Whatever the column, the order and the letters of the names
    and of the query, the rows of the Inventory table are a rearrangement
    of the records whose App or App ID, lowered, contains the query,
    lowered; two queries that lower to the same string, which is what case
    variants are, show the same rows in the same order; and, the built-in
    [toLowerCase] leaving the empty string empty, the empty query shows a
    rearrangement of all the records. *)
Theorem inventory_table_rows :
  forall (searchQuery sortColumn : string)
         (sortOrder : InventoryTable.SortOrder)
         (data : Inventory.InventoryData),
    Permutation (table searchQuery sortColumn sortOrder data)
                (filter (InventoryTable.matches toLowerCase searchQuery)
                        (Inventory.inventory data))
    /\ (forall item,
          In item (table searchQuery sortColumn sortOrder data)
          <-> In item (Inventory.inventory data)
              /\ (Js.includes (toLowerCase (Inventory.App item))
                              (toLowerCase searchQuery) = true
                  \/ Js.includes (toLowerCase (Inventory.AppID item))
                                 (toLowerCase searchQuery) = true))
    /\ (forall q', toLowerCase q' = toLowerCase searchQuery ->
                   table q' sortColumn sortOrder data
                   = table searchQuery sortColumn sortOrder data)
    /\ (toLowerCase "" = "" ->
        Permutation (table "" sortColumn sortOrder data)
                    (Inventory.inventory data)).
Proof.
  intros q col ord data.
  unfold InventoryTable.filteredAndSortedInventory.
  split; [apply sort_perm|]. split; [| split].
  - intros item. rewrite sort_In, filter_In.
    unfold InventoryTable.matches. rewrite orb_true_iff. reflexivity.
  - intros q' Hv. f_equal. apply filter_ext. intros item.
    unfold InventoryTable.matches. now rewrite Hv.
  - intros Hempty. rewrite sort_perm. rewrite filter_all; auto.
    intros item. unfold InventoryTable.matches.
    now rewrite Hempty, includes_empty.
Qed.

Lemma compare_counter col (key : Inventory.InventoryItem -> Q) ord a b :
  (forall item, InventoryTable.cell col item
                = InventoryTable.CNum (Js.Fin (key item))) ->
  InventoryTable.compare toLowerCase localeCompare numberToString col ord
    a b
  = match ord with
    | InventoryTable.asc => key a - key b
    | InventoryTable.desc => key b - key a
    end.
Proof.
  intros H. unfold InventoryTable.compare. rewrite !H.
  destruct ord; reflexivity.
Qed.

Lemma diff_pos a b : Js.gt (a - b) 0 = true <-> b < a.
Proof. rewrite gt_iff. split; intros H; lra. Qed.

Lemma diff_nonpos a b : Js.gt (a - b) 0 = false -> a <= b.
Proof.
  intros H. destruct (Qlt_le_dec b a) as [Hlt|Hle]; auto.
  apply diff_pos in Hlt. congruence.
Qed.

(** X10. When the sort column holds a counter (Spend, Impressions,
    Clicks, Install, Action), the rows of the Inventory table go down on
    that counter in descending order and up in ascending order, and rows
    with the same value keep the order the records had before the sort. *)
Theorem inventory_table_sorted :
  forall (searchQuery sortColumn : string)
         (key : Inventory.InventoryItem -> Q)
         (data : Inventory.InventoryData),
    (forall item, InventoryTable.cell sortColumn item
                  = InventoryTable.CNum (Js.Fin (key item))) ->
    Sorted (fun a b => key b <= key a)
           (table searchQuery sortColumn InventoryTable.desc data)
    /\ Sorted (fun a b => key a <= key b)
              (table searchQuery sortColumn InventoryTable.asc data)
    /\ forall (sortOrder : InventoryTable.SortOrder) (v : Q),
         filter (fun a => Qeq_bool (key a) v)
                (table searchQuery sortColumn sortOrder data)
         = filter (fun a => Qeq_bool (key a) v)
                  (filter (InventoryTable.matches toLowerCase searchQuery)
                          (Inventory.inventory data)).
Proof.
  intros q col key data Hcol.
  unfold InventoryTable.filteredAndSortedInventory.
  split; [| split].
  - apply sort_Sorted; intros x y;
      rewrite (compare_counter col key _ _ _ Hcol).
    + intros H. apply diff_pos in H. lra.
    + apply diff_nonpos.
  - apply sort_Sorted; intros x y;
      rewrite (compare_counter col key _ _ _ Hcol).
    + intros H. apply diff_pos in H. lra.
    + apply diff_nonpos.
  - intros ord v. apply sort_filter. intros x y Hx Hgt.
    rewrite (compare_counter col key _ _ _ Hcol) in Hgt.
    apply Qeq_bool_iff in Hx.
    destruct (Qeq_bool (key y) v) eqn:Hy; auto.
    apply Qeq_bool_iff in Hy.
    destruct ord; apply diff_pos in Hgt; lra.
Qed.

(** X11. A click on the header of a counter column that is not the sort
    column makes it the sort column and shows the table in descending
    order on it; a second click on the same header shows it in ascending
    order, and a third one in descending order again. *)
Theorem header_click_orders_table :
  forall (searchQuery column : string)
         (key : Inventory.InventoryItem -> Q)
         (data : Inventory.InventoryData)
         (st : string * InventoryTable.SortOrder),
    (forall item, InventoryTable.cell column item
                  = InventoryTable.CNum (Js.Fin (key item))) ->
    fst st <> column ->
    let st1 := InventoryTable.headerClick column st in
    let st2 := InventoryTable.headerClick column st1 in
    let st3 := InventoryTable.headerClick column st2 in
    st1 = (column, InventoryTable.desc)
    /\ st2 = (column, InventoryTable.asc)
    /\ st3 = st1
    /\ Sorted (fun a b => key b <= key a)
              (table searchQuery (fst st1) (snd st1) data)
    /\ Sorted (fun a b => key a <= key b)
              (table searchQuery (fst st2) (snd st2) data).
Proof.
  intros q col key data [c o] Hcol Hne. simpl in Hne.
  unfold InventoryTable.headerClick. simpl.
  apply String.eqb_neq in Hne. rewrite Hne. simpl.
  rewrite String.eqb_refl. simpl. rewrite String.eqb_refl. simpl.
  destruct (inventory_table_sorted q col key data Hcol) as [Hd [Ha _]].
  repeat split; assumption.
Qed.

End InventoryTableFacts.

(* ------------------------------------------------------------------ *)
(** ** Picked and applied filters *)

Lemma picks_keep_applied picks : forall st,
  forallb Filters.isPick picks = true ->
  Filters.appliedDateRange (fold_left Filters.step picks st)
  = Filters.appliedDateRange st
  /\ Filters.appliedCountry (fold_left Filters.step picks st)
     = Filters.appliedCountry st.
Proof.
  induction picks as [|ev picks IH]; intros st H; simpl in *; auto.
  apply andb_true_iff in H. destruct H as [Hev H].
  destruct (IH (Filters.step st ev) H) as [H1 H2].
  rewrite H1, H2. destruct ev; try discriminate Hev; auto.
Qed.

(** X12. The dates and the country picked in the filter bar reach the
    query only through the apply button: after any events, further picks
    leave the query as it was; the apply button then sends exactly the
    last picks; and the reset button brings the query back to the bare
    [_t] and empties the pickers. *)
Theorem filters_sent_only_when_applied :
  forall (now : string) (evs picks : list Filters.Event),
    forallb Filters.isPick picks = true ->
    let st := Filters.run evs in
    let st' := fold_left Filters.step picks st in
    Filters.query now st' = Filters.query now st
    /\ Filters.query now (Filters.step st' Filters.Apply)
       = ReportsQuery.fetchParams now (Filters.dateRange st')
           (Filters.selectedCountry st')
    /\ Filters.query now (Filters.step st' Filters.Reset) = [("_t", now)]
    /\ Filters.step st' Filters.Reset = Filters.initial.
Proof.
  intros now evs picks Hp st st'.
  destruct (picks_keep_applied picks st Hp) as [H1 H2].
  unfold Filters.query, st'. rewrite H1, H2.
  repeat split.
Qed.

(* ------------------------------------------------------------------ *)
(** ** The upload queue: selecting, removing, retrying *)

Section QueueEdits.
Import MultiCSVUpload.

Lemma firstn_min {A : Type} (n : nat) (l : list A) :
  firstn (Nat.min n (List.length l)) l = firstn n l.
Proof.
  destruct (Nat.le_ge_cases n (List.length l)) as [H|H].
  - now rewrite Nat.min_l.
  - rewrite Nat.min_r by assumption.
    now rewrite firstn_all, firstn_all2.
Qed.

Lemma slice0_firstn {A : Type} (arr : list A) (e : Z) :
  (0 <= e)%Z -> slice0 arr e = firstn (Z.to_nat e) arr.
Proof.
  intros He. unfold slice0.
  destruct (e <? 0)%Z eqn:E; [apply Z.ltb_lt in E; lia|].
  rewrite Z2Nat.inj_min, Nat2Z.id. apply firstn_min.
Qed.

Lemma toUploads_file gen fs : forall k, map file (toUploads gen k fs) = fs.
Proof. induction fs as [|f fs IH]; intros k; simpl; congruence. Qed.

Lemma toUploads_fresh gen fs : forall k,
  Forall (fun f => status f = pending /\ progress f = 0%Z
                   /\ error_text f = None
                   /\ name f = file_name (file f)
                   /\ size f = file_size (file f))
         (toUploads gen k fs).
Proof.
  induction fs as [|f fs IH]; intros k; simpl; constructor; auto.
Qed.

End QueueEdits.

(** X13. A selection (or a drop) leaves the files already queued as they
    are and appends, in order, the first files of the selection up to the
    room left under [maxFiles], each as a pending entry with progress 0
    and no error that carries the name and the size of its file; a full
    queue admits nothing, and a selection that fits is admitted whole. *)
Theorem select_appends_up_to_capacity :
  forall (maxFiles : Z) (sel : list MultiCSVUpload.File)
         (gen : nat -> string) (prev : list MultiCSVUpload.UploadFile),
    (Z.of_nat (List.length prev) <= maxFiles)%Z ->
    let room := Z.to_nat (maxFiles - Z.of_nat (List.length prev)) in
    exists newFiles,
      MultiCSVUpload.handleFileSelect maxFiles (List.length prev) (Some sel)
        gen prev
      = (prev ++ newFiles)%list
      /\ map MultiCSVUpload.file newFiles = firstn room sel
      /\ Forall (fun f =>
                   MultiCSVUpload.status f = MultiCSVUpload.pending
                   /\ MultiCSVUpload.progress f = 0%Z
                   /\ MultiCSVUpload.error_text f = None
                   /\ MultiCSVUpload.name f
                      = MultiCSVUpload.file_name (MultiCSVUpload.file f)
                   /\ MultiCSVUpload.size f
                      = MultiCSVUpload.file_size (MultiCSVUpload.file f))
                newFiles
      /\ (room = 0%nat -> newFiles = [])
      /\ ((List.length sel <= room)%nat ->
          map MultiCSVUpload.file newFiles = sel).
Proof.
  intros maxFiles sel gen prev H room.
  exists (MultiCSVUpload.toUploads gen 0 (firstn room sel)).
  unfold MultiCSVUpload.handleFileSelect.
  rewrite slice0_firstn by lia. fold room.
  split; [reflexivity|]. split; [apply toUploads_file|].
  split; [apply toUploads_fresh|]. split.
  - intros ->. reflexivity.
  - intros Hfit. rewrite toUploads_file. now apply firstn_all2.
Qed.

Lemma filter_keeps_all {A : Type} (f : A -> bool) l :
  (forall x, In x l -> f x = true) -> filter f l = l.
Proof.
  induction l as [|x l IH]; intros H; simpl; auto.
  rewrite (H x) by (left; reflexivity). f_equal. apply IH.
  intros y Hy. apply H. now right.
Qed.

(** X14. Removing an id leaves no file with that id and keeps every
    other file, in order; removing an id that is not queued changes
    nothing.  Retrying an id keeps the queue in place, file by file:
    the files with that id become pending again with progress 0 and no
    error, their id, file, name and size unchanged, and the others are
    untouched. *)
Theorem remove_and_retry_touch_only_their_id :
  forall (i : string) (files : list MultiCSVUpload.UploadFile),
    ~ In i (map MultiCSVUpload.id (MultiCSVUpload.removeFile i files))
    /\ (forall f, In f (MultiCSVUpload.removeFile i files)
                  <-> In f files /\ MultiCSVUpload.id f <> i)
    /\ (~ In i (map MultiCSVUpload.id files) ->
        MultiCSVUpload.removeFile i files = files
        /\ MultiCSVUpload.retryFile i files = files)
    /\ Forall2 (fun f f' =>
                  MultiCSVUpload.id f' = MultiCSVUpload.id f
                  /\ MultiCSVUpload.file f' = MultiCSVUpload.file f
                  /\ MultiCSVUpload.name f' = MultiCSVUpload.name f
                  /\ MultiCSVUpload.size f' = MultiCSVUpload.size f
                  /\ (MultiCSVUpload.id f <> i -> f' = f)
                  /\ (MultiCSVUpload.id f = i ->
                      MultiCSVUpload.status f' = MultiCSVUpload.pending
                      /\ MultiCSVUpload.progress f' = 0%Z
                      /\ MultiCSVUpload.error_text f' = None))
               files (MultiCSVUpload.retryFile i files).
Proof.
  intros i files.
  assert (forall f, In f (MultiCSVUpload.removeFile i files)
                    <-> In f files /\ MultiCSVUpload.id f <> i) as Hin.
  { intros f. unfold MultiCSVUpload.removeFile.
    rewrite filter_In, negb_true_iff, String.eqb_neq. reflexivity. }
  split; [| split; [exact Hin | split]].
  - intros H. apply in_map_iff in H. destruct H as [f [Hid Hf]].
    apply Hin in Hf. tauto.
  - intros Hno. split.
    + unfold MultiCSVUpload.removeFile. apply filter_keeps_all.
      intros f Hf. apply negb_true_iff, String.eqb_neq. intros E.
      apply Hno. apply in_map_iff. eauto.
    + unfold MultiCSVUpload.retryFile.
      destruct (find _ files) as [f|] eqn:E; auto.
      apply find_some in E. destruct E as [Hf E].
      apply String.eqb_eq in E. exfalso. apply Hno.
      apply in_map_iff. eauto.
  - unfold MultiCSVUpload.retryFile.
    destruct (find _ files) as [f0|] eqn:E.
    + clear. induction files as [|f files IH]; simpl.
      * constructor.
      * constructor; [| exact IH].
        destruct (String.eqb (MultiCSVUpload.id f) i) eqn:Ei; simpl.
        -- apply String.eqb_eq in Ei.
           repeat split; intros; auto; contradiction.
        -- apply String.eqb_neq in Ei.
           repeat split; intros; auto; contradiction.
    + assert (forall f, In f files -> MultiCSVUpload.id f <> i) as Hno.
      { intros f Hf Ei. apply (find_none _ _ E) in Hf.
        apply String.eqb_neq in Hf. contradiction. }
      clear E Hin. induction files as [|f files IH]; constructor.
      * repeat split; auto; exfalso;
          (apply (Hno f); [left; reflexivity | assumption]).
      * apply IH. intros f' Hf'. apply Hno. now right.
Qed.

(* ------------------------------------------------------------------ *)
(** ** The upload queue: [processAllFiles] *)

Section ProcessAll.
Import MultiCSVUpload UploadRun.

(** The updates of one turn, taken together. *)
Lemma iteration_settles i o st : iteration i o st = update i (settled o) st.
Proof.
  unfold iteration, update, progressSteps. simpl fold_left.
  destruct o as [r|msg]; rewrite !map_map; apply map_ext; intros f;
    destruct (String.eqb (id f) i) eqn:E; simpl;
    repeat (rewrite ?E; simpl); reflexivity.
Qed.

Lemma update_elsewhere i g (l : list UploadFile) :
  (forall f, In f l -> id f <> i) -> update i g l = l.
Proof.
  intros H. unfold update. rewrite <- (map_id l) at 2.
  apply map_ext_in. intros f Hf.
  destruct (String.eqb (id f) i) eqn:E; auto.
  apply String.eqb_eq in E. exfalso. eapply H; eauto.
Qed.

Lemma settled_sameFile o f : sameFile f (settled o f).
Proof. destruct o; repeat split. Qed.

Lemma update_sameFile i o (l : list UploadFile) :
  Forall2 sameFile l (update i (settled o) l).
Proof.
  induction l as [|f l IH]; simpl; constructor; auto.
  destruct (String.eqb (id f) i); [apply settled_sameFile | repeat split].
Qed.

Lemma Forall2_sameFile_trans l1 l2 l3 :
  Forall2 sameFile l1 l2 -> Forall2 sameFile l2 l3 -> Forall2 sameFile l1 l3.
Proof.
  intros H. revert l3. induction H as [|a b l1 l2 Hab _ IH]; intros l3 H3;
    inversion H3; subst; constructor; auto.
  destruct Hab as [? [? [? ?]]].
  match goal with H : sameFile b _ |- _ => destruct H as [? [? [? ?]]] end.
  repeat split; congruence.
Qed.

Lemma Forall2_sameFile_refl l : Forall2 sameFile l l.
Proof. induction l; constructor; auto. repeat split. Qed.

Lemma loop_sameFile upload files : forall k st rs,
  Forall2 sameFile st (fst (loop upload k files st rs)).
Proof.
  induction files as [|f files IH]; intros k st rs; simpl.
  - apply Forall2_sameFile_refl.
  - eapply Forall2_sameFile_trans; [| apply IH].
    rewrite iteration_settles. apply update_sameFile.
Qed.

Lemma loop_settles upload files : forall k st rs,
  (forall f, In f st -> isSettled f \/ In (id f) (map id files)) ->
  Forall isSettled (fst (loop upload k files st rs)).
Proof.
  induction files as [|f0 files IH]; intros k st rs H; simpl.
  - apply Forall_forall. intros f Hf. destruct (H f Hf) as [Hs|[]]; auto.
  - apply IH. intros f Hf. rewrite iteration_settles in Hf.
    unfold update in Hf. apply in_map_iff in Hf.
    destruct Hf as [g [Hg Hin]].
    destruct (String.eqb (id g) (id f0)) eqn:E.
    + subst f. left. destruct (upload k); [left | right]; reflexivity.
    + subst f. destruct (H g Hin) as [Hs|[Hid|Hid]]; auto.
      apply String.eqb_neq in E. congruence.
Qed.

Lemma loop_results upload files : forall k st rs,
  snd (loop upload k files st rs)
  = (rs ++ answersFrom upload k (List.length files))%list.
Proof.
  induction files as [|f files IH]; intros k st rs; simpl.
  - now rewrite app_nil_r.
  - rewrite IH. destruct (upload k); [now rewrite <- app_assoc | reflexivity].
Qed.

Lemma counts_of_settled (l : list UploadFile) :
  Forall isSettled l ->
  (completedCount l + errorCount l = List.length l)%nat.
Proof.
  unfold completedCount, errorCount, isCompleted, isError.
  induction 1 as [|f l [Hf|Hf] _ IH]; simpl; auto; rewrite Hf; simpl; lia.
Qed.

Lemma loop_distinct upload files : forall pre k rs,
  NoDup (map id pre ++ map id files) ->
  fst (loop upload k files (pre ++ files) rs)
  = (pre ++ settledFrom upload k files)%list.
Proof.
  induction files as [|f files IH]; intros pre k rs Hnd; simpl.
  - reflexivity.
  - rewrite iteration_settles.
    assert (update (id f) (settled (upload k)) (pre ++ f :: files)
            = (pre ++ [settled (upload k) f]) ++ files)%list as E.
    { unfold update at 1. rewrite map_app. simpl.
      rewrite String.eqb_refl.
      fold (update (id f) (settled (upload k)) pre).
      fold (update (id f) (settled (upload k)) files).
      rewrite !update_elsewhere, <- app_assoc; auto.
      - intros g Hg Eg. apply NoDup_remove_2 in Hnd. apply Hnd.
        apply in_or_app. right. rewrite <- Eg. now apply in_map.
      - intros g Hg Eg. apply NoDup_remove_2 in Hnd. apply Hnd.
        apply in_or_app. left. rewrite <- Eg. now apply in_map. }
    rewrite E, IH.
    + now rewrite <- app_assoc.
    + rewrite map_app, <- app_assoc. simpl.
      destruct (upload k); exact Hnd.
Qed.

Lemma completedCount_settledFrom upload files : forall k,
  completedCount (settledFrom upload k files)
  = List.length (answersFrom upload k (List.length files)).
Proof.
  unfold completedCount.
  induction files as [|f files IH]; intros k; simpl; auto.
  unfold isCompleted at 1.
  destruct (upload k); simpl; rewrite IH; reflexivity.
Qed.

End ProcessAll.

(** X15. When [processAllFiles] has gone through the queue (nothing else
    touching it meanwhile), the queue holds the same files in the same
    places, every one of them completed or failed, whatever its status
    was before; the completed and the failed ones together make up the
    queue; and [onUploadComplete] receives the answers of the uploads that
    succeeded, in order, and is not called when none did. *)
Theorem processAll_settles_every_file :
  forall (upload : nat -> UploadRun.Outcome)
         (files : list MultiCSVUpload.UploadFile),
    let st := fst (UploadRun.processAllFiles upload files) in
    let reported := snd (UploadRun.processAllFiles upload files) in
    Forall2 (fun f f' =>
               MultiCSVUpload.id f' = MultiCSVUpload.id f
               /\ MultiCSVUpload.file f' = MultiCSVUpload.file f
               /\ MultiCSVUpload.name f' = MultiCSVUpload.name f
               /\ MultiCSVUpload.size f' = MultiCSVUpload.size f)
            files st
    /\ Forall (fun f =>
                 MultiCSVUpload.status f = MultiCSVUpload.completed
                 \/ MultiCSVUpload.status f = MultiCSVUpload.error) st
    /\ (UploadRun.completedCount st + UploadRun.errorCount st
        = List.length files)%nat
    /\ reported
       = match UploadRun.answersFrom upload 0 (List.length files) with
         | [] => None
         | answers => Some answers
         end.
Proof.
  intros upload files st reported.
  unfold st, reported, UploadRun.processAllFiles.
  pose proof (loop_sameFile upload files 0 files []) as H1.
  pose proof (loop_settles upload files 0 files []) as H2.
  pose proof (loop_results upload files 0 files []) as H3.
  destruct (UploadRun.loop upload 0 files files []) as [st' rs].
  simpl in *. subst rs.
  assert (Forall UploadRun.isSettled st') as Hs.
  { apply H2. intros f Hf. right. now apply in_map. }
  split; [exact H1|]. split; [exact Hs|]. split.
  - rewrite (counts_of_settled _ Hs).
    symmetry. eapply Forall2_length; eauto.
  - destruct (UploadRun.answersFrom upload 0 (List.length files));
      reflexivity.
Qed.

(** X16. When the ids of the queued files are distinct, each file ends
    as its own upload ended: completed with progress 100 (its error text,
    if it had one, still in place) when the upload succeeded, failed with
    progress 50 and the message of the error when it did not; and as many
    files are completed as uploads succeeded. *)
Theorem processAll_file_by_file :
  forall (upload : nat -> UploadRun.Outcome)
         (files : list MultiCSVUpload.UploadFile),
    NoDup (map MultiCSVUpload.id files) ->
    fst (UploadRun.processAllFiles upload files)
    = UploadRun.settledFrom upload 0 files
    /\ UploadRun.completedCount (fst (UploadRun.processAllFiles upload files))
       = List.length (UploadRun.answersFrom upload 0 (List.length files)).
Proof.
  intros upload files Hnd.
  assert (fst (UploadRun.processAllFiles upload files)
          = UploadRun.settledFrom upload 0 files) as E.
  { unfold UploadRun.processAllFiles.
    pose proof (loop_distinct upload files [] 0 [] Hnd) as H.
    destruct (UploadRun.loop upload 0 files ([] ++ files) []) as [st rs] eqn:El.
    simpl in El. rewrite El. exact H. }
  split; [exact E|]. rewrite E. apply completedCount_settledFrom.
Qed.

(* ------------------------------------------------------------------ *)
(** ** Clearing the reports: what follows the request *)

(** X17. Neither handler does anything when the dialog is declined; the
    sidebar reloads the page (after a second) exactly when the answer
    carries [success: true], and the header sets the count to 0 and
    reloads exactly when the response is [ok]: a request that fails is
    never followed by a reload. *)
Theorem clear_reports_reloads_only_on_success :
  forall (prod confirmed : bool) (answer : option ClearReports.Response),
    let side := ClearReports.appSidebar_clearReports prod confirmed answer in
    let head := ClearReports.header_clearReports prod confirmed answer in
    (confirmed = false -> side = [] /\ head = [])
    /\ (In (ClearReports.ReloadAfter 1000) side
        <-> confirmed = true
            /\ exists r b, answer = Some r /\ ClearReports.json r = Some b
                           /\ ClearReports.success b = true)
    /\ (In ClearReports.ReloadNow head
        <-> confirmed = true
            /\ exists r, answer = Some r /\ ClearReports.ok r = true)
    /\ (In (ClearReports.SetReportsCount 0) head
        <-> In ClearReports.ReloadNow head).
Proof.
  intros prod confirmed answer side head. unfold side, head.
  unfold ClearReports.appSidebar_clearReports,
    ClearReports.header_clearReports.
  destruct confirmed; cbn [negb];
    [destruct answer as [[o [[sc m]|]]|]; try destruct sc; try destruct o |];
    cbn -[String.append];
    (split; [intros H; try discriminate H; auto |]);
    (split; [| split]); split; intros H;
    repeat match goal with
           | H : _ /\ _ |- _ => destruct H
           | H : exists _, _ |- _ => destruct H
           | H : _ \/ _ |- _ => destruct H
           | H : False |- _ => destruct H
           | H : Some _ = Some _ |- _ => inversion H; clear H; subst
           end;
    simpl in *;
    repeat match goal with
           | H : Some _ = Some _ |- _ => inversion H; clear H; subst
           end;
    simpl in *; try discriminate; try congruence;
    try solve [intuition (auto; congruence)];
    try solve [split; [reflexivity | do 2 eexists; repeat split; reflexivity]];
    try solve [split; [reflexivity | eexists; repeat split; reflexivity]].
Qed.

(* ------------------------------------------------------------------ *)
(** ** The further statements at concrete inputs *)

Lemma labels_at_labelledRows :
  group Inventory.appKey "Puzzle iOS_id1" (rowsOf (reportOf labelledRows))
  = [puzzleSpring; puzzleSummer]
  /\ exists out,
       inventoryRecord (reportOf labelledRows) "Puzzle iOS_id1" = Some out
       /\ Inventory.App out = Js.orStr (cApp puzzleSpring) "Unknown App"
       /\ Inventory.AppID out = Js.orStr (cAppID puzzleSpring) "unknown"
       /\ Inventory.OS out = Js.orStr (cOS puzzleSpring) "Unknown".
Proof.
  split; [reflexivity|].
  exact (proj1 (labels_from_first_row (reportOf labelledRows)
                  "Puzzle iOS_id1" puzzleSpring [puzzleSummer]) eq_refl).
Defined.

Lemma campaigns_at_labelledRows :
  In "Puzzle iOS" (map Apps.appKey (rowsOf (reportOf labelledRows)))
  /\ exists out,
       appsRecord (reportOf labelledRows) "Puzzle iOS" = Some out
       /\ Apps.campaigns out
          = List.length
              (firstSeen
                 (campaignNames
                    (group Apps.appKey "Puzzle iOS"
                       (rowsOf (reportOf labelledRows)))))
       /\ Apps.creatives out
          = Z.of_nat
              (List.length
                 (group Apps.appKey "Puzzle iOS"
                    (rowsOf (reportOf labelledRows))))
       /\ (Z.of_nat (Apps.campaigns out) <= Apps.creatives out)%Z.
Proof.
  assert (In "Puzzle iOS" (map Apps.appKey (rowsOf (reportOf labelledRows))))
    as Hk by (simpl; auto).
  split; [exact Hk|].
  exact (apps_campaigns_distinct (reportOf labelledRows) "Puzzle iOS" Hk).
Defined.

Lemma ipm_at_labelledRows :
  In "Puzzle iOS" (map Apps.appKey (rowsOf (reportOf labelledRows)))
  /\ exists out,
       appsRecord (reportOf labelledRows) "Puzzle iOS" = Some out
       /\ Apps.ipm out
          = Js.orZero
              (cIPM (last (group Apps.appKey "Puzzle iOS"
                             (rowsOf (reportOf labelledRows)))
                          racerSpring)).
Proof.
  assert (In "Puzzle iOS" (map Apps.appKey (rowsOf (reportOf labelledRows))))
    as Hk by (simpl; auto).
  split; [exact Hk|].
  exact (apps_ipm_of_last_creative (reportOf labelledRows) "Puzzle iOS"
           racerSpring Hk).
Defined.

Lemma rating_at_sample :
  Apps.getPerformanceRating 2 60 10 = Apps.Good
  /\ (0 < 10 /\ 0 < 2 /\ 50 < 60)
  /\ (0 <= 0 \/ 2 <= 0 \/ 60 <= 20)
  /\ Apps.getPerformanceRating 2 60 0 = Apps.Poor.
Proof.
  assert (Apps.getPerformanceRating 2 60 10 = Apps.Good) as Hg
    by reflexivity.
  assert (0 <= 0 \/ 2 <= 0 \/ 60 <= 20) as Hp
    by (left; apply Qle_refl).
  split; [exact Hg|]. split.
  - exact (proj1 (rating_needs_spend_actions_ipm 2 60 10) Hg).
  - split; [exact Hp|].
    exact (proj2 (proj2 (rating_needs_spend_actions_ipm 2 60 0)) Hp).
Defined.


Lemma inventory_table_at_sample :
  Js.toLowerCase "puzzle" = Js.toLowerCase "PUZZLE"
  /\ InventoryTable.filteredAndSortedInventory Js.toLowerCase
       sampleLocaleCompare sampleNumberToString "puzzle" "Spend"
       InventoryTable.desc sampleInventory
     = InventoryTable.filteredAndSortedInventory Js.toLowerCase
         sampleLocaleCompare sampleNumberToString "PUZZLE" "Spend"
         InventoryTable.desc sampleInventory
  /\ Js.toLowerCase "" = ""
  /\ Permutation
       (InventoryTable.filteredAndSortedInventory Js.toLowerCase
          sampleLocaleCompare sampleNumberToString "" "Spend"
          InventoryTable.desc sampleInventory)
       (Inventory.inventory sampleInventory).
Proof.
  split; [reflexivity|]. split.
  - exact (proj1 (proj2 (proj2
             (inventory_table_rows Js.toLowerCase sampleLocaleCompare
                sampleNumberToString "PUZZLE" "Spend" InventoryTable.desc
                sampleInventory)))
             "puzzle" eq_refl).
  - split; [reflexivity|].
    exact (proj2 (proj2 (proj2
             (inventory_table_rows Js.toLowerCase sampleLocaleCompare
                sampleNumberToString "" "Spend" InventoryTable.desc
                sampleInventory)))
             eq_refl).
Defined.

Lemma spend_column_is_counter :
  forall item, InventoryTable.cell "Spend" item
               = InventoryTable.CNum (Js.Fin (Inventory.Spend item)).
Proof. intros item. reflexivity. Defined.

Lemma install_column_is_counter :
  forall item, InventoryTable.cell "Install" item
               = InventoryTable.CNum (Js.Fin (Inventory.Install item)).
Proof. intros item. reflexivity. Defined.

Lemma inventory_sorted_at_sample :
  Sorted (fun a b => Inventory.Spend b <= Inventory.Spend a)
         (InventoryTable.filteredAndSortedInventory Js.toLowerCase
            sampleLocaleCompare sampleNumberToString "" "Spend" InventoryTable.desc
            sampleInventory)
  /\ Sorted (fun a b => Inventory.Spend a <= Inventory.Spend b)
            (InventoryTable.filteredAndSortedInventory Js.toLowerCase
               sampleLocaleCompare sampleNumberToString "" "Spend" InventoryTable.asc
               sampleInventory).
Proof.
  destruct (inventory_table_sorted Js.toLowerCase sampleLocaleCompare
              sampleNumberToString
              "" "Spend" Inventory.Spend sampleInventory
              spend_column_is_counter) as [Hd [Ha _]].
  split; assumption.
Defined.

Lemma header_click_at_sample :
  let st1 := InventoryTable.headerClick "Install"
               ("Spend", InventoryTable.desc) in
  fst ("Spend", InventoryTable.desc) <> "Install"
  /\ st1 = ("Install", InventoryTable.desc)
  /\ InventoryTable.headerClick "Install" st1
     = ("Install", InventoryTable.asc)
  /\ Sorted (fun a b => Inventory.Install b <= Inventory.Install a)
            (InventoryTable.filteredAndSortedInventory Js.toLowerCase
               sampleLocaleCompare sampleNumberToString "" (fst st1) (snd st1) sampleInventory).
Proof.
  intros st1.
  assert (fst ("Spend", InventoryTable.desc) <> "Install") as Hne
    by (simpl; discriminate).
  destruct (header_click_orders_table Js.toLowerCase sampleLocaleCompare
              sampleNumberToString "" "Install" Inventory.Install
              sampleInventory ("Spend", InventoryTable.desc)
              install_column_is_counter Hne) as [H1 [H2 [_ [H4 _]]]].
  split; [exact Hne|]. split; [exact H1|]. split; [exact H2|]. exact H4.
Defined.

Lemma filters_at_sample :
  let evs := [Filters.PickCountry (Some "US"); Filters.Apply] in
  let picks := [Filters.PickDates
                  (Some (ReportsQuery.mkDate "2024-03-01T00:00:00.000Z")) None;
                Filters.PickCountry None] in
  forallb Filters.isPick picks = true
  /\ Filters.query "1" (fold_left Filters.step picks (Filters.run evs))
     = Filters.query "1" (Filters.run evs)
  /\ Filters.query "1" (Filters.run evs) = [("_t", "1"); ("country", "US")].
Proof.
  intros evs picks.
  split; [reflexivity|]. split; [| reflexivity].
  exact (proj1 (filters_sent_only_when_applied "1" evs picks eq_refl)).
Defined.

Lemma select_at_sample :
  (Z.of_nat (List.length sampleUploads) <= MultiCSVUpload.defaultMaxFiles)%Z
  /\ exists newFiles,
       MultiCSVUpload.handleFileSelect MultiCSVUpload.defaultMaxFiles
         (List.length sampleUploads) (Some (sampleFiles 9)) (sampleIds "g")
         sampleUploads
       = (sampleUploads ++ newFiles)%list
       /\ map MultiCSVUpload.file newFiles = firstn 7 (sampleFiles 9).
Proof.
  assert (Z.of_nat (List.length sampleUploads)
          <= MultiCSVUpload.defaultMaxFiles)%Z as H
    by (vm_compute; discriminate).
  split; [exact H|].
  destruct (select_appends_up_to_capacity MultiCSVUpload.defaultMaxFiles
              (sampleFiles 9) (sampleIds "g") sampleUploads H)
    as [newFiles [H1 [H2 _]]].
  exists newFiles. split; [exact H1 | exact H2].
Defined.

Lemma remove_absent_at_sample :
  ~ In "zz" (map MultiCSVUpload.id sampleUploads)
  /\ MultiCSVUpload.removeFile "zz" sampleUploads = sampleUploads
  /\ MultiCSVUpload.retryFile "zz" sampleUploads = sampleUploads.
Proof.
  assert (~ In "zz" (map MultiCSVUpload.id sampleUploads)) as H.
  { simpl. intros [E|[E|[E|[]]]]; discriminate E. }
  split; [exact H|].
  exact (proj1 (proj2 (proj2
           (remove_and_retry_touch_only_their_id "zz" sampleUploads))) H).
Defined.

Lemma processAll_at_sample :
  NoDup (map MultiCSVUpload.id sampleUploads)
  /\ fst (UploadRun.processAllFiles sampleUpload sampleUploads)
     = UploadRun.settledFrom sampleUpload 0 sampleUploads
  /\ UploadRun.completedCount
       (fst (UploadRun.processAllFiles sampleUpload sampleUploads))
     = List.length
         (UploadRun.answersFrom sampleUpload 0 (List.length sampleUploads)).
Proof.
  assert (NoDup (map MultiCSVUpload.id sampleUploads)) as H.
  { simpl. repeat constructor; simpl; intuition discriminate. }
  split; [exact H|].
  exact (processAll_file_by_file sampleUpload sampleUploads H).
Defined.

(** The sample run: the second upload fails, the two others succeed. *)
Example processAll_sample :
  map (fun f => (MultiCSVUpload.id f, MultiCSVUpload.status f,
                 MultiCSVUpload.progress f))
      (fst (UploadRun.processAllFiles sampleUpload sampleUploads))
  = [("f0", MultiCSVUpload.completed, 100%Z);
     ("f1", MultiCSVUpload.error, 50%Z);
     ("f2", MultiCSVUpload.completed, 100%Z)]
  /\ snd (UploadRun.processAllFiles sampleUpload sampleUploads)
     = Some ["ok"; "ok"].
Proof. split; reflexivity. Qed.

Lemma clear_declined :
  ClearReports.appSidebar_clearReports true false None = []
  /\ ClearReports.header_clearReports true false None = [].
Proof.
  exact (proj1 (clear_reports_reloads_only_on_success true false None)
           eq_refl).
Defined.
